(** * awswrangler.catalog._add : partition registration and column append

    A shallow embedding of [src/awswrangler/catalog/_add.py].  The module talks
    to the Glue catalog through a boto3 client; here the client is a triple of
    state transformers over an abstract remote state, every request that is
    issued is recorded, and a Python exception is an explicit [Raise] result. *)

From Stdlib Require Import String List Arith ZArith Lia Bool DecimalString.
Import ListNotations.
Open Scope string_scope.
Open Scope list_scope.

Set Implicit Arguments.

(** ** Python values *)

(** A [dict] keeps its items in insertion order; [items] is that order.  Keys
    of a well-formed dict are pairwise distinct ([dict_keys_unique]). *)
Definition dict (K V : Type) : Type := list (K * V).

Definition items {K V : Type} (d : dict K V) : list (K * V) := d.

Definition keys {K V : Type} (d : dict K V) : list K := map fst d.

Definition dict_keys_unique {K V : Type} (d : dict K V) : Prop := NoDup (keys d).

(** Truth value of a container: [if partitions_values:], [res["Errors"]]. *)
Definition truthy {A : Type} (l : list A) : bool :=
  match l with
  | [] => false
  | _ :: _ => true
  end.

(** Exceptions that can leave this module. *)
Inductive exception : Type :=
| ServiceApiError (msg : string)
| ValidationError (column_type : string)
| KeyError (key : string)
| ClientError (code : string).

Inductive result (A : Type) : Type :=
| Ok (a : A)
| Raise (e : exception).

Arguments Ok {A} a.
Arguments Raise {A} e.

Definition raises {A : Type} (r : result A) : bool :=
  match r with
  | Ok _ => false
  | Raise _ => true
  end.

(** ** Catalog data *)

Inductive FileFormat : Type := CSV | JSON | PARQUET | ORC.

Record SerDeInfo : Type := {
  Format : FileFormat;
  SerializationLibrary : option string;
  SerdeParameters : option (dict string string);
  FieldDelimiter : option string
}.

(** Modelled from the spec: the PartitionInput record built by the format
    specific definition builders of [awswrangler.catalog._definitions], which
    are not part of the sources.  Section 3 lists its fields: location, serde
    configuration, columns, bucketing info, compression and free-form
    parameters, next to the partition values. *)
Record PartitionInput : Type := {
  Location : string;
  Values : list string;
  SerdeInfo : SerDeInfo;
  Columns : option (dict string string);
  BucketingInfo : option (list string * Z);
  Compression : option string;
  Parameters : option (dict string string)
}.

(** Per-record error of a response, as the code probes it: the keys
    ["ErrorDetail"] and ["ErrorCode"] may each be absent. *)
Record error_detail : Type := {
  ErrorCode : option string;
  ErrorMessage : option string
}.

Record error : Type := {
  PartitionValues : option (list string);
  ErrorDetail : option error_detail
}.

(** A response of [batch_create_partition] or [update_table]; only the
    ["Errors"] key is read. *)
Record response : Type := {
  Errors : option (list error)
}.

(** The error code of a reported error, when it has a recognizable one. *)
Definition error_code (e : error) : option string :=
  match ErrorDetail e with
  | Some d => ErrorCode d
  | None => None
  end.

Module Column.
Record t : Type := {
  Name : string;
  Type' : string;
  Comment : option string
}.
End Column.

Module StorageDescriptor.
Record t : Type := {
  Columns : option (list Column.t);
  Location : option string;
  Compressed : option bool
}.
End StorageDescriptor.

(** The table definition returned by [get_table]; [DatabaseName],
    [CreateTime], [UpdateTime] and [CreatedBy] are managed by the service. *)
Module Table.
Record t : Type := {
  Name : string;
  Description : option string;
  Owner : option string;
  StorageDescriptor : option StorageDescriptor.t;
  PartitionKeys : option (list Column.t);
  TableType : option string;
  Parameters : option (dict string string);
  DatabaseName : option string;
  CreateTime : option Z;
  UpdateTime : option Z;
  CreatedBy : option string
}.
End Table.

Module TableInput.
Record t : Type := {
  Name : string;
  Description : option string;
  Owner : option string;
  StorageDescriptor : option StorageDescriptor.t;
  PartitionKeys : option (list Column.t);
  TableType : option string;
  Parameters : option (dict string string)
}.
End TableInput.

(** ** Requests *)

(** Modelled from the spec: [_catalog_id] of [awswrangler.catalog._utils] (not
    part of the sources) returns its keyword arguments, with the catalog
    identifier added when one is provided. *)
Record with_catalog_id (K : Type) : Type := {
  CatalogId : option string;
  kwargs : K
}.

Definition _catalog_id {K : Type} (catalog_id : option string) (kw : K)
  : with_catalog_id K :=
  {| CatalogId := catalog_id; kwargs := kw |}.

Module BatchCreatePartition.
Record kw : Type := {
  DatabaseName : string;
  TableName : string;
  PartitionInputList : list PartitionInput
}.
Definition request : Type := with_catalog_id kw.
End BatchCreatePartition.

Module GetTable.
Record kw : Type := {
  DatabaseName : string;
  Name : string
}.
Definition request : Type := with_catalog_id kw.
Record response : Type := {
  Table : Table.t
}.
End GetTable.

Module UpdateTable.
Record kw : Type := {
  DatabaseName : string;
  TableInput : TableInput.t
}.
Definition request : Type := with_catalog_id kw.
End UpdateTable.

(** A network call made through the Glue client. *)
Inductive call : Type :=
| batch_create_partition_call (req : BatchCreatePartition.request)
| get_table_call (req : GetTable.request)
| update_table_call (req : UpdateTable.request).

(** The Glue client: each operation reads and changes the remote catalog
    state, and either answers or raises (transport, auth, service faults). *)
Record GlueClient (World : Type) : Type := {
  batch_create_partition :
    BatchCreatePartition.request -> World -> World * result response;
  get_table :
    GetTable.request -> World -> World * result GetTable.response;
  update_table :
    UpdateTable.request -> World -> World * result response
}.

(** ** Helpers of [awswrangler._utils] and [awswrangler.catalog] *)

(** Modelled from the spec: [_utils.chunkify] is not part of the sources.
    Section 4.1, step 1: consecutive chunks of at most [max_length] records,
    the last one possibly shorter, chunk order and record order preserved.
    The recursion is bounded by the length of the list, which is enough when
    [max_length] is positive (see [chunkify_concat]). *)
Fixpoint chunkify_from {A : Type} (fuel : nat) (lst : list A) (max_length : nat)
  : list (list A) :=
  match fuel with
  | O => []
  | S fuel' =>
      match lst with
      | [] => []
      | _ :: _ =>
          firstn max_length lst :: chunkify_from fuel' (skipn max_length lst) max_length
      end
  end.

Definition chunkify {A : Type} (lst : list A) (max_length : nat) : list (list A) :=
  chunkify_from (length lst) lst max_length.

(** Number of chunks of the spec: ceil(n / d). *)
Definition ceil_div (n d : nat) : nat := (n + (d - 1)) / d.

(** Modelled from the spec: the definition builders, one per file format, are
    not part of the sources.  Section 6: a pure function from location,
    values, bucketing info, compression, column types, serialization options
    and extra parameters to one PartitionInput record, which carries the
    storage location it was given (section 8). *)
Definition _csv_partition_definition
    (location : string) (values : list string)
    (bucketing_info : option (list string * Z)) (compression : option string)
    (sep : string) (columns_types : option (dict string string))
    (serde_library : option string) (serde_parameters : option (dict string string))
    (partitions_parameters : option (dict string string)) : PartitionInput :=
  {| Location := location;
     Values := values;
     SerdeInfo := {| Format := CSV;
                     SerializationLibrary := serde_library;
                     SerdeParameters := serde_parameters;
                     FieldDelimiter := Some sep |};
     Columns := columns_types;
     BucketingInfo := bucketing_info;
     Compression := compression;
     Parameters := partitions_parameters |}.

Definition _json_partition_definition
    (location : string) (values : list string)
    (bucketing_info : option (list string * Z)) (compression : option string)
    (columns_types : option (dict string string))
    (serde_library : option string) (serde_parameters : option (dict string string))
    (partitions_parameters : option (dict string string)) : PartitionInput :=
  {| Location := location;
     Values := values;
     SerdeInfo := {| Format := JSON;
                     SerializationLibrary := serde_library;
                     SerdeParameters := serde_parameters;
                     FieldDelimiter := None |};
     Columns := columns_types;
     BucketingInfo := bucketing_info;
     Compression := compression;
     Parameters := partitions_parameters |}.

Definition _parquet_partition_definition
    (location : string) (values : list string)
    (bucketing_info : option (list string * Z)) (compression : option string)
    (columns_types : option (dict string string))
    (partitions_parameters : option (dict string string)) : PartitionInput :=
  {| Location := location;
     Values := values;
     SerdeInfo := {| Format := PARQUET;
                     SerializationLibrary := None;
                     SerdeParameters := None;
                     FieldDelimiter := None |};
     Columns := columns_types;
     BucketingInfo := bucketing_info;
     Compression := compression;
     Parameters := partitions_parameters |}.

Definition _orc_partition_definition
    (location : string) (values : list string)
    (bucketing_info : option (list string * Z)) (compression : option string)
    (columns_types : option (dict string string))
    (partitions_parameters : option (dict string string)) : PartitionInput :=
  {| Location := location;
     Values := values;
     SerdeInfo := {| Format := ORC;
                     SerializationLibrary := None;
                     SerdeParameters := None;
                     FieldDelimiter := None |};
     Columns := columns_types;
     BucketingInfo := bucketing_info;
     Compression := compression;
     Parameters := partitions_parameters |}.

(** Modelled from the spec: [_update_table_definition] is not part of the
    sources.  Section 4.2, step 3: the updatable table input is derived from
    the fetched definition by dropping the fields the service manages. *)
Definition _update_table_definition (table_res : GetTable.response) : TableInput.t :=
  let tbl := GetTable.Table table_res in
  {| TableInput.Name := Table.Name tbl;
     TableInput.Description := Table.Description tbl;
     TableInput.Owner := Table.Owner tbl;
     TableInput.StorageDescriptor := Table.StorageDescriptor tbl;
     TableInput.PartitionKeys := Table.PartitionKeys tbl;
     TableInput.TableType := Table.TableType tbl;
     TableInput.Parameters := Table.Parameters tbl |}.

(** ** The module, over a Glue client *)

Section Catalog.

(** Remote catalog state and the client bound to it.  [_utils.client] only
    builds the client object from the session; it makes no request, so the
    [boto3_session] argument of every operation is the choice of
    [client_glue]. *)
Variable World : Type.
Variable client_glue : GlueClient World.

(** Python's [str] on the raw error list of a response. *)
Variable py_str : list error -> string.

(** [sanitize_table_name] of [awswrangler.catalog._utils] and the set of
    column types the catalog supports are not part of the sources. *)
Variable sanitize_table_name : string -> string.
Variable _LEGAL_COLUMN_TYPES : list string.

(** What a run leaves behind: the remote state, the requests issued in
    order, and the value returned or the exception raised. *)
Record outcome (A : Type) : Type := {
  world : World;
  calls : list call;
  value : result A
}.

Definition M (A : Type) : Type := World -> outcome A.

Definition ret {A : Type} (a : A) : M A :=
  fun w => {| world := w; calls := []; value := Ok a |}.

Definition bind {A B : Type} (m : M A) (k : A -> M B) : M B :=
  fun w =>
    let o := m w in
    match value o with
    | Ok a =>
        let o' := k a (world o) in
        {| world := world o'; calls := calls o ++ calls o'; value := value o' |}
    | Raise e => {| world := world o; calls := calls o; value := Raise e |}
    end.

(** A pure computation that may raise. *)
Definition lift {A : Type} (r : result A) : M A :=
  fun w => {| world := w; calls := []; value := r |}.

Notation "x <- m ;; k" := (bind m (fun x => k))
  (at level 61, m at next level, right associativity).

Definition call_batch_create_partition (req : BatchCreatePartition.request)
  : M response :=
  fun w =>
    let (w', r) := batch_create_partition client_glue req w in
    {| world := w'; calls := [batch_create_partition_call req]; value := r |}.

Definition call_get_table (req : GetTable.request) : M GetTable.response :=
  fun w =>
    let (w', r) := get_table client_glue req w in
    {| world := w'; calls := [get_table_call req]; value := r |}.

Definition call_update_table (req : UpdateTable.request) : M response :=
  fun w =>
    let (w', r) := update_table client_glue req w in
    {| world := w'; calls := [update_table_call req]; value := r |}.

(** [for x in xs: body(x)] *)
Fixpoint for_each {A : Type} (xs : list A) (body : A -> M unit) : M unit :=
  match xs with
  | [] => ret tt
  | x :: xs' => _ <- body x ;; for_each xs' body
  end.

(** *** [_add_partitions] *)

(** Lines 39-43: the loop over [res["Errors"]]; [all] is [res["Errors"]]. *)
Fixpoint _add_partitions_errors (all errs : list error) : result unit :=
  match errs with
  | [] => Ok tt
  | e :: rest =>
      match ErrorDetail e with
      | Some d =>
          match ErrorCode d with
          | Some c =>
              if negb (String.eqb c "AlreadyExistsException")
              then Raise (ServiceApiError (py_str all))
              else _add_partitions_errors all rest
          | None => _add_partitions_errors all rest
          end
      | None => _add_partitions_errors all rest
      end
  end.

(** Lines 38-43: what is done with one response. *)
Definition _add_partitions_response (res : response) : result unit :=
  match Errors res with
  | Some errs =>
      if truthy errs then _add_partitions_errors errs errs else Ok tt
  | None => Ok tt
  end.

(** Line 36: the keyword arguments of [batch_create_partition]. *)
Definition batch_request (database table : string) (catalog_id : option string)
    (chunk : list PartitionInput) : BatchCreatePartition.request :=
  _catalog_id catalog_id
    {| BatchCreatePartition.DatabaseName := database;
       BatchCreatePartition.TableName := table;
       BatchCreatePartition.PartitionInputList := chunk |}.

(** Lines 35-43: the body of the loop, for one chunk. *)
Definition _add_partitions_chunk (database table : string)
    (catalog_id : option string) (chunk : list PartitionInput) : M unit :=
  res <- call_batch_create_partition
           (batch_request database table catalog_id chunk) ;;
  lift (_add_partitions_response res).

(** Lines 25-43.  The chunks are computed first (line 32), the client is
    built (line 33), then the chunks are submitted in order; a raise inside
    the loop ends the call. *)
Definition _add_partitions (database table : string)
    (inputs : list PartitionInput) (catalog_id : option string) : M unit :=
  let chunks := chunkify inputs 100 in
  for_each chunks (_add_partitions_chunk database table catalog_id).

(** *** The four public add-partitions operations *)

(** Lines 113-128.  [apply_configs] only fills in defaults of arguments the
    caller left out; the arguments are explicit here. *)
Definition add_csv_partitions (database table : string)
    (partitions_values : dict string (list string))
    (bucketing_info : option (list string * Z))
    (catalog_id compression : option string) (sep : string)
    (serde_library : option string)
    (serde_parameters columns_types partitions_parameters
       : option (dict string string)) : M unit :=
  let table := sanitize_table_name table in
  let inputs :=
    map (fun kv =>
           _csv_partition_definition (fst kv) (snd kv) bucketing_info
             compression sep columns_types serde_library serde_parameters
             partitions_parameters)
        (items partitions_values) in
  _add_partitions database table inputs catalog_id.

(** Lines 195-209. *)
Definition add_json_partitions (database table : string)
    (partitions_values : dict string (list string))
    (bucketing_info : option (list string * Z))
    (catalog_id compression : option string)
    (serde_library : option string)
    (serde_parameters columns_types partitions_parameters
       : option (dict string string)) : M unit :=
  let table := sanitize_table_name table in
  let inputs :=
    map (fun kv =>
           _json_partition_definition (fst kv) (snd kv) bucketing_info
             compression columns_types serde_library serde_parameters
             partitions_parameters)
        (items partitions_values) in
  _add_partitions database table inputs catalog_id.

(** Lines 267-282: nothing is built or sent when the mapping is empty. *)
Definition add_parquet_partitions (database table : string)
    (partitions_values : dict string (list string))
    (bucketing_info : option (list string * Z))
    (catalog_id compression : option string)
    (columns_types partitions_parameters : option (dict string string))
  : M unit :=
  let table := sanitize_table_name table in
  if truthy partitions_values then
    let inputs :=
      map (fun kv =>
             _parquet_partition_definition (fst kv) (snd kv) bucketing_info
               compression columns_types partitions_parameters)
          (items partitions_values) in
    _add_partitions database table inputs catalog_id
  else ret tt.

(** Lines 340-355. *)
Definition add_orc_partitions (database table : string)
    (partitions_values : dict string (list string))
    (bucketing_info : option (list string * Z))
    (catalog_id compression : option string)
    (columns_types partitions_parameters : option (dict string string))
  : M unit :=
  let table := sanitize_table_name table in
  if truthy partitions_values then
    let inputs :=
      map (fun kv =>
             _orc_partition_definition (fst kv) (snd kv) bucketing_info
               compression columns_types partitions_parameters)
          (items partitions_values) in
    _add_partitions database table inputs catalog_id
  else ret tt.

(** *** [add_column] *)

(** Modelled from the spec: [_check_column_type] is not part of the
    sources.  Sections 4.2 and 7: a column type outside the supported set
    is rejected with a validation error; a supported one passes. *)
Definition _check_column_type (column_type : string) : result bool :=
  if existsb (String.eqb column_type) _LEGAL_COLUMN_TYPES
  then Ok true
  else Raise (ValidationError column_type).

(** Lines 402-404: [table_input["StorageDescriptor"]["Columns"].append(col)];
    indexing a missing key raises [KeyError]. *)
Definition append_column (table_input : TableInput.t) (col : Column.t)
  : result TableInput.t :=
  match TableInput.StorageDescriptor table_input with
  | None => Raise (KeyError "StorageDescriptor")
  | Some sd =>
      match StorageDescriptor.Columns sd with
      | None => Raise (KeyError "Columns")
      | Some cols =>
          Ok {| TableInput.Name := TableInput.Name table_input;
                TableInput.Description := TableInput.Description table_input;
                TableInput.Owner := TableInput.Owner table_input;
                TableInput.StorageDescriptor :=
                  Some {| StorageDescriptor.Columns := Some (cols ++ [col]);
                          StorageDescriptor.Location := StorageDescriptor.Location sd;
                          StorageDescriptor.Compressed := StorageDescriptor.Compressed sd |};
                TableInput.PartitionKeys := TableInput.PartitionKeys table_input;
                TableInput.TableType := TableInput.TableType table_input;
                TableInput.Parameters := TableInput.Parameters table_input |}
      end
  end.

(** Lines 409-412: the loop over [res["Errors"]]; [all] is [res["Errors"]]. *)
Fixpoint _add_column_errors (all errs : list error) : result unit :=
  match errs with
  | [] => Ok tt
  | e :: rest =>
      match ErrorDetail e with
      | Some d =>
          match ErrorCode d with
          | Some _ => Raise (ServiceApiError (py_str all))
          | None => _add_column_errors all rest
          end
      | None => _add_column_errors all rest
      end
  end.

(** Lines 408-412. *)
Definition _add_column_response (res : response) : result unit :=
  match Errors res with
  | Some errs =>
      if truthy errs then _add_column_errors errs errs else Ok tt
  | None => Ok tt
  end.

(** Line 400: the keyword arguments of [get_table]. *)
Definition get_table_request (database table : string)
    (catalog_id : option string) : GetTable.request :=
  _catalog_id catalog_id
    {| GetTable.DatabaseName := database; GetTable.Name := table |}.

(** Line 406: the keyword arguments of [update_table]; the table is named
    inside [table_input] only. *)
Definition update_table_request (database : string)
    (table_input : TableInput.t) (catalog_id : option string)
  : UpdateTable.request :=
  _catalog_id catalog_id
    {| UpdateTable.DatabaseName := database;
       UpdateTable.TableInput := table_input |}.

(** Lines 398-412.  When [_check_column_type] returns a false value the
    function falls through and returns [None]. *)
Definition add_column (database table column_name column_type : string)
    (column_comment catalog_id : option string) : M unit :=
  checked <- lift (_check_column_type column_type) ;;
  if (checked : bool) then
    table_res <- call_get_table (get_table_request database table catalog_id) ;;
    let table_input := _update_table_definition table_res in
    table_input <- lift (append_column table_input
                           {| Column.Name := column_name;
                              Column.Type' := column_type;
                              Column.Comment := column_comment |}) ;;
    res <- call_update_table
             (update_table_request database table_input catalog_id) ;;
    lift (_add_column_response res)
  else ret tt.

End Catalog.

(** ** Vocabulary of the statements *)

(** A reported error that [_add_partitions] does not ignore: it carries an
    error code, and the code is not the already-exists sentinel. *)
Definition fatal_error (e : error) : bool :=
  match error_code e with
  | Some c => negb (String.eqb c "AlreadyExistsException")
  | None => false
  end.

(** A reported error without a recognizable error-code structure. *)
Definition unrecognizable (e : error) : bool :=
  match error_code e with
  | Some _ => false
  | None => true
  end.

(** An answer of [batch_create_partition] after which the loop of
    [_add_partitions] goes on to the next chunk. *)
Definition accepted (r : result response) : bool :=
  match r with
  | Ok res =>
      match Errors res with
      | Some errs => negb (existsb fatal_error errs)
      | None => true
      end
  | Raise _ => false
  end.

Section Service.

Variable World : Type.
Variable client_glue : GlueClient World.

(** The remote state once the requests [reqs] have been served in order. *)
Fixpoint world_after (reqs : list BatchCreatePartition.request) (w : World)
  : World :=
  match reqs with
  | [] => w
  | r :: rs => world_after rs (fst (batch_create_partition client_glue r w))
  end.

(** The answers the service gives to [reqs], served in order from [w]. *)
Fixpoint batch_responses (reqs : list BatchCreatePartition.request) (w : World)
  : list (result response) :=
  match reqs with
  | [] => []
  | r :: rs =>
      snd (batch_create_partition client_glue r w)
        :: batch_responses rs (fst (batch_create_partition client_glue r w))
  end.

End Service.

(** One bulk-create call was issued, with one record per item of the mapping,
    in order, each located at its key. *)
Definition one_call_one_record_per_key (partitions_values : dict string (list string))
    (issued : list call) : Prop :=
  exists req,
    issued = [batch_create_partition_call req] /\
    Forall2 (fun kv p => Location p = fst kv)
      (items partitions_values)
      (BatchCreatePartition.PartitionInputList (kwargs req)).

(** Every call is a bulk-create request for the table [name]. *)
Definition all_batch_calls_for_table (name : string) (issued : list call) : Prop :=
  Forall (fun c =>
            match c with
            | batch_create_partition_call req =>
                BatchCreatePartition.TableName (kwargs req) = name
            | _ => False
            end) issued.

(** The ordered column list of a fetched table and of a table input. *)
Definition table_columns (tbl : Table.t) : option (list Column.t) :=
  match Table.StorageDescriptor tbl with
  | Some sd => StorageDescriptor.Columns sd
  | None => None
  end.

Definition table_input_columns (table_input : TableInput.t)
  : option (list Column.t) :=
  match TableInput.StorageDescriptor table_input with
  | Some sd => StorageDescriptor.Columns sd
  | None => None
  end.

(** The table name a call of [add_column] carries: the [Name] argument of a
    get-table call, the name inside the table input of an update-table call. *)
Definition table_name_sent (c : call) : option string :=
  match c with
  | batch_create_partition_call req =>
      Some (BatchCreatePartition.TableName (kwargs req))
  | get_table_call req => Some (GetTable.Name (kwargs req))
  | update_table_call req =>
      Some (TableInput.Name (UpdateTable.TableInput (kwargs req)))
  end.

(** ** A scripted client *)

(** A client whose answers are fixed in advance: the [n]-th request served is
    answered by the script, and the remote state counts the requests. *)
Definition scripted_client (batch : nat -> result response)
    (fetched : result GetTable.response) (updated : result response)
  : GlueClient nat :=
  {| batch_create_partition := fun _ n => (S n, batch n);
     get_table := fun _ n => (S n, fetched);
     update_table := fun _ n => (S n, updated) |}.

Definition error_with_code (c : string) : error :=
  {| PartitionValues := Some ["2020"; "10"];
     ErrorDetail := Some {| ErrorCode := Some c; ErrorMessage := None |} |}.

Definition error_without_detail : error :=
  {| PartitionValues := Some ["2020"; "10"]; ErrorDetail := None |}.

Definition error_without_code : error :=
  {| PartitionValues := Some ["2020"; "11"];
     ErrorDetail := Some {| ErrorCode := None; ErrorMessage := Some "failed" |} |}.

Definition no_errors : response := {| Errors := None |}.

Definition errors_of (errs : list error) : response := {| Errors := Some errs |}.

(** A rendering of error lists for the examples: the codes, in order. *)
Definition codes_str (errs : list error) : string :=
  String.concat ","
    (map (fun e => match error_code e with Some c => c | None => "?" end) errs).

Definition example_partitions : dict string (list string) :=
  [("s3://b/y=2020/m=10/", ["2020"; "10"]); ("s3://b/y=2020/m=11/", ["2020"; "11"])].

Definition example_input (n : nat) : PartitionInput :=
  _parquet_partition_definition "s3://b/p/" [NilEmpty.string_of_uint (Nat.to_uint n)] None None None None.

Definition example_inputs (n : nat) : list PartitionInput :=
  map example_input (seq 0 n).

Definition example_column (name : string) : Column.t :=
  {| Column.Name := name; Column.Type' := "string"; Column.Comment := None |}.

Definition example_table (name : string) : GetTable.response :=
  {| GetTable.Table :=
       {| Table.Name := name;
          Table.Description := None;
          Table.Owner := None;
          Table.StorageDescriptor :=
            Some {| StorageDescriptor.Columns :=
                      Some [example_column "c0"; example_column "c1"];
                    StorageDescriptor.Location := Some "s3://b/t/";
                    StorageDescriptor.Compressed := Some false |};
          Table.PartitionKeys := None;
          Table.TableType := Some "EXTERNAL_TABLE";
          Table.Parameters := None;
          Table.DatabaseName := Some "db";
          Table.CreateTime := Some 0%Z;
          Table.UpdateTime := Some 0%Z;
          Table.CreatedBy := None |} |}.

Definition example_types : list string := ["string"; "int"; "bigint"; "double"].

(** A stand-in for [sanitize_table_name] in the examples. *)
Definition example_sanitize (table : string) : string :=
  String.append "t_" table.

(** A service that gives the same answer to every bulk-create request. *)
Definition client_answering (res : response) : GlueClient nat :=
  scripted_client (fun _ => Ok res) (Ok (example_table "t")) (Ok no_errors).

(** A service whose second bulk-create answer reports a fatal error next to
    an already-exists one; every other answer is clean. *)
Definition second_answer_errors : list error :=
  [error_with_code "AlreadyExistsException";
   error_with_code "InternalServiceException"].

Definition client_failing_second : GlueClient nat :=
  scripted_client
    (fun n => match n with
              | 1 => Ok (errors_of second_answer_errors)
              | _ => Ok no_errors
              end)
    (Ok (example_table "t")) (Ok no_errors).

(** A service that stores tables under lower-case names: asked for
    ["MyTable"] it returns the definition named ["mytable"]. *)
Definition client_lowercasing (updated : response) : GlueClient nat :=
  scripted_client (fun _ => Ok no_errors) (Ok (example_table "mytable")) (Ok updated).

(** Every call is a bulk-create request for [database] in the catalog
    [catalog_id]. *)
Definition all_batch_calls_for_database (database : string)
    (catalog_id : option string) (issued : list call) : Prop :=
  Forall (fun c =>
            match c with
            | batch_create_partition_call req =>
                BatchCreatePartition.DatabaseName (kwargs req) = database /\
                CatalogId req = catalog_id
            | _ => False
            end) issued.

(** A service whose second bulk-create request fails in the client. *)
Definition client_throttling_second : GlueClient nat :=
  scripted_client
    (fun n => match n with
              | 1 => Raise (ClientError "ThrottlingException")
              | _ => Ok no_errors
              end)
    (Ok (example_table "t")) (Ok no_errors).

(** A service that knows no table. *)
Definition client_without_table : GlueClient nat :=
  scripted_client (fun _ => Ok no_errors)
    (Raise (ClientError "EntityNotFoundException")) (Ok no_errors).

(** A service that refuses updates. *)
Definition client_refusing_update : GlueClient nat :=
  scripted_client (fun _ => Ok no_errors)
    (Ok (example_table "t")) (Raise (ClientError "AccessDeniedException")).

(** A fetched table whose storage descriptor has no column list. *)
Definition example_table_without_columns : GetTable.response :=
  {| GetTable.Table :=
       {| Table.Name := "t";
          Table.Description := None;
          Table.Owner := None;
          Table.StorageDescriptor :=
            Some {| StorageDescriptor.Columns := None;
                    StorageDescriptor.Location := Some "s3://b/t/";
                    StorageDescriptor.Compressed := None |};
          Table.PartitionKeys := None;
          Table.TableType := None;
          Table.Parameters := None;
          Table.DatabaseName := Some "db";
          Table.CreateTime := None;
          Table.UpdateTime := None;
          Table.CreatedBy := None |} |}.

Definition client_table_without_columns : GlueClient nat :=
  scripted_client (fun _ => Ok no_errors)
    (Ok example_table_without_columns) (Ok no_errors).

(** The records a bulk-create call carries. *)
Definition records_sent (c : call) : list PartitionInput :=
  match c with
  | batch_create_partition_call req =>
      BatchCreatePartition.PartitionInputList (kwargs req)
  | _ => []
  end.

(** A service whose first bulk-create answer reports an already-exists error
    only, and whose later answers report a fatal error next to it. *)
Definition client_already_exists_then_fatal : GlueClient nat :=
  scripted_client
    (fun n => match n with
              | 0 => Ok (errors_of [error_with_code "AlreadyExistsException"])
              | _ => Ok (errors_of second_answer_errors)
              end)
    (Ok (example_table "t")) (Ok no_errors).

(** A service whose first bulk-create answer reports errors without a
    recognizable code only, and whose later answers report a fatal error. *)
Definition client_unrecognizable_then_fatal : GlueClient nat :=
  scripted_client
    (fun n => match n with
              | 0 => Ok (errors_of [error_without_detail; error_without_code;
                                    error_with_code "AlreadyExistsException"])
              | _ => Ok (errors_of second_answer_errors)
              end)
    (Ok (example_table "t")) (Ok no_errors).

(** * Properties *)

(** ** Chunking *)

Section Chunkify.

Variable A : Type.

Lemma ceil_div_0 (d : nat) : 0 < d -> ceil_div 0 d = 0.
Proof.
  intros Hd. unfold ceil_div. apply Nat.div_small. lia.
Qed.

Lemma ceil_div_step (n d : nat) :
  0 < d -> 0 < n -> ceil_div n d = S (ceil_div (n - d) d).
Proof.
  intros Hd Hn. unfold ceil_div.
  destruct (le_lt_dec n d) as [Hle | Hlt].
  - replace (n - d) with 0 by lia.
    rewrite (Nat.div_small (0 + (d - 1)) d) by lia.
    symmetry. apply Nat.div_unique with (r := n - 1); lia.
  - replace (n + (d - 1)) with ((n - d + (d - 1)) + 1 * d) by lia.
    rewrite Nat.div_add by lia. lia.
Qed.

(** [ceil_div n d] is the least number of chunks of size [d] that hold [n]
    records. *)
Lemma ceil_div_least (n d : nat) :
  0 < d -> n <= ceil_div n d * d /\ (forall k, n <= k * d -> ceil_div n d <= k).
Proof.
  intros Hd. unfold ceil_div. split.
  - pose proof (Nat.div_mod_eq (n + (d - 1)) d) as E.
    pose proof (Nat.mod_upper_bound (n + (d - 1)) d) as U. nia.
  - intros k Hk.
    apply Nat.lt_succ_r. apply Nat.Div0.div_lt_upper_bound.
    rewrite Nat.mul_succ_r. lia.
Qed.

Lemma chunkify_from_nil (fuel m : nat) : @chunkify_from A fuel [] m = [].
Proof. destruct fuel; reflexivity. Qed.

Lemma chunkify_from_cons (fuel m : nat) (x : A) (l : list A) :
  chunkify_from (S fuel) (x :: l) m =
  firstn m (x :: l) :: chunkify_from fuel (skipn m (x :: l)) m.
Proof. reflexivity. Qed.

Lemma skipn_shorter (m : nat) (x : A) (l : list A) (fuel : nat) :
  0 < m -> length (x :: l) <= S fuel -> length (skipn m (x :: l)) <= fuel.
Proof.
  intros Hm Hf. rewrite length_skipn. cbn [length] in *. lia.
Qed.

Lemma chunkify_from_concat (m : nat) :
  0 < m ->
  forall fuel (lst : list A),
    length lst <= fuel -> concat (chunkify_from fuel lst m) = lst.
Proof.
  intros Hm. induction fuel as [| fuel IH]; intros lst Hlen.
  - destruct lst; [reflexivity | simpl in Hlen; lia].
  - destruct lst as [| x l]; [reflexivity |].
    rewrite chunkify_from_cons. cbn [concat].
    rewrite IH by (apply skipn_shorter; assumption).
    apply firstn_skipn.
Qed.

Lemma chunkify_from_length (m : nat) :
  0 < m ->
  forall fuel (lst : list A),
    length lst <= fuel ->
    length (chunkify_from fuel lst m) = ceil_div (length lst) m.
Proof.
  intros Hm. induction fuel as [| fuel IH]; intros lst Hlen.
  - destruct lst; [| simpl in Hlen; lia].
    simpl. symmetry. apply ceil_div_0. assumption.
  - destruct lst as [| x l].
    + simpl. symmetry. apply ceil_div_0. assumption.
    + rewrite chunkify_from_cons. cbn [length].
      rewrite IH by (apply skipn_shorter; assumption).
      rewrite length_skipn. cbn [length].
      symmetry. apply ceil_div_step; lia.
Qed.

Lemma chunkify_from_sizes (m : nat) :
  0 < m ->
  forall fuel (lst : list A),
    Forall (fun c => 1 <= length c <= m) (chunkify_from fuel lst m).
Proof.
  intros Hm. induction fuel as [| fuel IH]; intros lst.
  - constructor.
  - destruct lst as [| x l]; [constructor |].
    rewrite chunkify_from_cons. constructor; [| apply IH].
    rewrite length_firstn. cbn [length]. lia.
Qed.

Lemma chunkify_from_full (m : nat) :
  forall fuel (lst : list A) i,
    S i < length (chunkify_from fuel lst m) ->
    length (nth i (chunkify_from fuel lst m) []) = m.
Proof.
  induction fuel as [| fuel IH]; intros lst i Hi.
  - simpl in Hi. lia.
  - destruct lst as [| x l]; [simpl in Hi; lia |].
    rewrite chunkify_from_cons in *. cbn [length] in Hi.
    destruct i as [| i].
    + cbn [nth]. rewrite length_firstn.
      destruct (skipn m (x :: l)) as [| y r] eqn:E.
      * rewrite chunkify_from_nil in Hi. simpl in Hi. lia.
      * assert (L : length (skipn m (x :: l)) = S (length r))
          by (rewrite E; reflexivity).
        rewrite length_skipn in L. lia.
    + cbn [nth]. apply IH. lia.
Qed.

(** A list that fits in one chunk is its own single chunk. *)
Lemma chunkify_single (m : nat) (lst : list A) :
  truthy lst = true -> length lst <= m -> chunkify lst m = [lst].
Proof.
  intros Hne Hlen. destruct lst as [| x l]; [discriminate |].
  unfold chunkify. cbn [length]. rewrite chunkify_from_cons.
  rewrite firstn_all2, skipn_all2 by assumption.
  rewrite chunkify_from_nil. reflexivity.
Qed.

Lemma chunkify_nil (m : nat) : @chunkify A [] m = [].
Proof. reflexivity. Qed.

End Chunkify.

(** ** Error classification of one response *)

Section Classification.

Variable py_str : list error -> string.

Lemma _add_partitions_errors_spec (all errs : list error) :
  _add_partitions_errors py_str all errs =
  if existsb fatal_error errs then Raise (ServiceApiError (py_str all)) else Ok tt.
Proof.
  induction errs as [| e rest IH]; [reflexivity |].
  cbn [_add_partitions_errors existsb].
  unfold fatal_error at 1, error_code.
  destruct (ErrorDetail e) as [d |]; [| exact IH].
  destruct (ErrorCode d) as [c |]; [| exact IH].
  destruct (negb (c =? "AlreadyExistsException")%string); [reflexivity | exact IH].
Qed.

Lemma _add_partitions_response_spec (res : response) :
  _add_partitions_response py_str res =
  match Errors res with
  | Some errs =>
      if existsb fatal_error errs
      then Raise (ServiceApiError (py_str errs))
      else Ok tt
  | None => Ok tt
  end.
Proof.
  unfold _add_partitions_response.
  destruct (Errors res) as [errs |]; [| reflexivity].
  destruct errs as [| e rest]; [reflexivity |].
  cbn [truthy]. apply _add_partitions_errors_spec.
Qed.

Lemma accepted_response (res : response) :
  accepted (Ok res) = true -> _add_partitions_response py_str res = Ok tt.
Proof.
  rewrite _add_partitions_response_spec. unfold accepted.
  destruct (Errors res) as [errs |]; [| reflexivity].
  destruct (existsb fatal_error errs); [discriminate | reflexivity].
Qed.

Lemma fatal_error_iff (e : error) :
  fatal_error e = true <->
  exists c, error_code e = Some c /\ c <> "AlreadyExistsException".
Proof.
  unfold fatal_error. destruct (error_code e) as [c |].
  - rewrite negb_true_iff, String.eqb_neq. split.
    + intros H. exists c. split; [reflexivity | assumption].
    + intros [c' [E H]]. inversion E. subst. assumption.
  - split; [discriminate | intros [c [E _]]; discriminate].
Qed.

Lemma _add_column_errors_spec (all errs : list error) :
  _add_column_errors py_str all errs =
  if forallb unrecognizable errs then Ok tt else Raise (ServiceApiError (py_str all)).
Proof.
  induction errs as [| e rest IH]; [reflexivity |].
  cbn [_add_column_errors forallb].
  unfold unrecognizable at 1, error_code.
  destruct (ErrorDetail e) as [d |]; [| exact IH].
  destruct (ErrorCode d) as [c |]; [reflexivity | exact IH].
Qed.

End Classification.

(** ** Runs of [_add_partitions] *)

Section Runs.

Variable World : Type.
Variable client_glue : GlueClient World.
Variable py_str : list error -> string.
Variables database table : string.
Variable catalog_id : option string.

Local Abbreviation req := (batch_request database table catalog_id).
Local Abbreviation body := (_add_partitions_chunk client_glue py_str database table catalog_id).
Local Abbreviation serve := (batch_create_partition client_glue).

Lemma chunk_accepted (chunk : list PartitionInput) (w : World) :
  accepted (snd (serve (req chunk) w)) = true ->
  body chunk w =
  {| world := fst (serve (req chunk) w);
     calls := [batch_create_partition_call (req chunk)];
     value := Ok tt |}.
Proof.
  unfold _add_partitions_chunk, bind, call_batch_create_partition, lift.
  destruct (serve (req chunk) w) as [w' r].
  cbn [fst snd world calls value].
  destruct r as [res | e]; [| discriminate].
  intros Hacc. rewrite (accepted_response py_str res Hacc). reflexivity.
Qed.

Lemma chunk_rejected (chunk : list PartitionInput) (w : World)
    (res : response) (errs : list error) :
  snd (serve (req chunk) w) = Ok res ->
  Errors res = Some errs ->
  existsb fatal_error errs = true ->
  body chunk w =
  {| world := fst (serve (req chunk) w);
     calls := [batch_create_partition_call (req chunk)];
     value := Raise (ServiceApiError (py_str errs)) |}.
Proof.
  unfold _add_partitions_chunk, bind, call_batch_create_partition, lift.
  destruct (serve (req chunk) w) as [w' r].
  cbn [fst snd world calls value].
  intros -> Herrs Hfatal.
  rewrite _add_partitions_response_spec, Herrs, Hfatal. reflexivity.
Qed.

(** Each iteration issues exactly one request, whatever the answer. *)
Lemma chunk_calls (chunk : list PartitionInput) (w : World) :
  calls (body chunk w) = [batch_create_partition_call (req chunk)].
Proof.
  unfold _add_partitions_chunk, bind, call_batch_create_partition, lift.
  destruct (serve (req chunk) w) as [w' r].
  cbn [world calls value].
  destruct r as [res | e]; reflexivity.
Qed.

Lemma chunk_world (chunk : list PartitionInput) (w : World) :
  world (body chunk w) = fst (serve (req chunk) w).
Proof.
  unfold _add_partitions_chunk, bind, call_batch_create_partition, lift.
  destruct (serve (req chunk) w) as [w' r].
  cbn [world calls value].
  destruct r as [res | e]; reflexivity.
Qed.

(** One step of the loop. *)
Lemma for_each_cons (chunk : list PartitionInput)
    (rest : list (list PartitionInput)) (w : World) :
  for_each (chunk :: rest) body w =
  match value (body chunk w) with
  | Ok _ =>
      let o := for_each rest body (world (body chunk w)) in
      {| world := world o;
         calls := batch_create_partition_call (req chunk) :: calls o;
         value := value o |}
  | Raise e =>
      {| world := world (body chunk w);
         calls := [batch_create_partition_call (req chunk)];
         value := Raise e |}
  end.
Proof.
  cbn [for_each]. unfold bind at 1.
  rewrite chunk_calls. destruct (value (body chunk w)); reflexivity.
Qed.

(** While every answer is accepted the loop runs through all chunks. *)
Lemma for_each_accepted (chunks : list (list PartitionInput)) :
  forall w,
    forallb accepted (batch_responses client_glue (map req chunks) w) = true ->
    for_each chunks body w =
    {| world := world_after client_glue (map req chunks) w;
       calls := map batch_create_partition_call (map req chunks);
       value := Ok tt |}.
Proof.
  induction chunks as [| chunk rest IH]; intros w Hall; [reflexivity |].
  cbn [map batch_responses forallb] in Hall.
  apply andb_true_iff in Hall as [Hacc Hrest].
  rewrite for_each_cons, (chunk_accepted chunk w Hacc).
  cbn [value world]. rewrite (IH _ Hrest). reflexivity.
Qed.

(** The loop stops at the first answer it rejects. *)
Lemma for_each_rejected (pre : list (list PartitionInput))
    (chunk : list PartitionInput) (post : list (list PartitionInput))
    (res : response) (errs : list error) :
  forall w,
    forallb accepted (batch_responses client_glue (map req pre) w) = true ->
    snd (serve (req chunk) (world_after client_glue (map req pre) w)) = Ok res ->
    Errors res = Some errs ->
    existsb fatal_error errs = true ->
    for_each (pre ++ chunk :: post) body w =
    {| world := world_after client_glue (map req (pre ++ [chunk])) w;
       calls := map batch_create_partition_call (map req (pre ++ [chunk]));
       value := Raise (ServiceApiError (py_str errs)) |}.
Proof.
  induction pre as [| c pre IH]; intros w Hall Hres Herrs Hfatal.
  - cbn [app map world_after] in *.
    rewrite for_each_cons, (chunk_rejected chunk w Hres Herrs Hfatal).
    reflexivity.
  - cbn [map batch_responses forallb world_after] in Hall, Hres.
    apply andb_true_iff in Hall as [Hacc Hrest].
    rewrite <- app_comm_cons, for_each_cons, (chunk_accepted c w Hacc).
    cbn [value world]. rewrite (IH _ Hrest Hres Herrs Hfatal). reflexivity.
Qed.

(** Whatever the service answers, the requests issued are those of a
    prefix of the chunks, one each and in order; the prefix is the whole
    list when the loop returns. *)
Lemma for_each_prefix (chunks : list (list PartitionInput)) :
  forall w,
    exists k,
      k <= length chunks /\
      calls (for_each chunks body w) =
        map batch_create_partition_call (map req (firstn k chunks)) /\
      world (for_each chunks body w) =
        world_after client_glue (map req (firstn k chunks)) w /\
      (value (for_each chunks body w) = Ok tt -> k = length chunks) /\
      (raises (value (for_each chunks body w)) = true ->
   exists j,
     k = S j /\
     accepted (snd (serve (req (nth j chunks []))
                      (world_after client_glue
                         (map req (firstn j chunks)) w))) = false).
Proof.
induction chunks as [| chunk rest IH]; intros w.
- exists 0. cbn. repeat split; try reflexivity; try lia; discriminate.
- rewrite for_each_cons.
  destruct (value (body chunk w)) as [[] | e] eqn:Hv.
  + destruct (IH (world (body chunk w))) as [k [Hk [Hc [Hw [Hok Hraise]]]]].
    exists (S k). cbn [length firstn map world calls value world_after].
    rewrite <- chunk_world.
    repeat split.
    * lia.
    * rewrite Hc. reflexivity.
    * exact Hw.
    * intros H. rewrite (Hok H). reflexivity.
    * intros H. destruct (Hraise H) as [j [Hj Hrej]].
      exists (S j). split; [rewrite Hj; reflexivity |].
      cbn [nth firstn map world_after].
      rewrite <- chunk_world. exact Hrej.
  + exists 1. cbn [length firstn map world calls value world_after].
    rewrite chunk_world.
    repeat split; try reflexivity; try lia; try discriminate.
    intros _. exists 0. split; [reflexivity |].
    cbn [nth firstn map world_after].
    revert Hv.
    unfold _add_partitions_chunk, bind, call_batch_create_partition, lift.
    destruct (serve (req chunk) w) as [w' r].
    cbn [fst snd world calls value].
    destruct r as [res | e']; [| reflexivity].
    cbn [value]. intros Hv.
    destruct (accepted (Ok res)) eqn:Hacc; [| reflexivity].
    rewrite (accepted_response py_str res Hacc) in Hv. discriminate.
Qed.

End Runs.
(** ** [_add_partitions]: classification, chunking, abort *)

Section AddPartitions.

Variable World : Type.
Variable client_glue : GlueClient World.
Variable py_str : list error -> string.

(** X3. Against a service all of whose answers are accepted (no errors, or
    only errors the loop ignores), the whole call returns normally after one
    request per chunk, in chunk order. *)
Lemma add_partitions_all_accepted
    (database table : string) (catalog_id : option string)
    (inputs : list PartitionInput) (w : World) :
  (forall req w', accepted (snd (batch_create_partition client_glue req w')) = true) ->
  _add_partitions client_glue py_str database table inputs catalog_id w
  = {| world := world_after client_glue
                  (map (batch_request database table catalog_id)
                       (chunkify inputs 100)) w;
       calls := map batch_create_partition_call
                  (map (batch_request database table catalog_id)
                       (chunkify inputs 100));
       value := Ok tt |}.
Proof.
intros Hall. unfold _add_partitions. cbv zeta.
apply for_each_accepted.
generalize (map (batch_request database table catalog_id) (chunkify inputs 100)).
intros reqs. revert w.
induction reqs as [| r rs IH]; intros w; [reflexivity |].
cbn [batch_responses forallb]. rewrite Hall, IH. reflexivity.
Qed.

Lemma existsb_fatal_iff (errs : list error) :
  existsb fatal_error errs = true <->
  Exists (fun e => exists c, error_code e = Some c /\ c <> "AlreadyExistsException")
         errs.
Proof.
rewrite existsb_exists, Exists_exists. split.
- intros [e [Hin Hf]]. exists e. split; [assumption |].
  apply fatal_error_iff. assumption.
- intros [e [Hin Hf]]. exists e. split; [assumption |].
  apply fatal_error_iff. assumption.
Qed.

Lemma chunk_value (database table : string) (catalog_id : option string)
    (chunk : list PartitionInput) (w : World) (res : response) :
  snd (batch_create_partition client_glue
         (batch_request database table catalog_id chunk) w) = Ok res ->
  value (_add_partitions_chunk client_glue py_str database table catalog_id chunk w)
  = _add_partitions_response py_str res.
Proof.
unfold _add_partitions_chunk, bind, call_batch_create_partition, lift.
destruct (batch_create_partition client_glue
            (batch_request database table catalog_id chunk) w) as [w' r].
cbn [fst snd world calls value]. intros ->.
cbn [value]. reflexivity.
Qed.


End AddPartitions.

(** *** Concrete runs *)

(** An answer made of one error without "ErrorDetail" and one whose detail
    has no "ErrorCode": the error list is not empty, no error in it has a
    recognizable code, and the call returns normally after its single
    request. *)
Lemma add_partitions_unrecognizable_counterexample :
  truthy [error_without_detail; error_without_code] = true /\
  forallb unrecognizable [error_without_detail; error_without_code] = true /\
  value (_add_partitions
           (client_answering (errors_of [error_without_detail; error_without_code]))
           codes_str "db" "t" (example_inputs 2) None 0) = Ok tt /\
  length (calls (_add_partitions
           (client_answering (errors_of [error_without_detail; error_without_code]))
           codes_str "db" "t" (example_inputs 2) None 0)) = 1.
Proof.
repeat split; vm_compute; reflexivity.
Qed.

(** 101 records make two chunks; the service rejects the first request, so
    one request is issued and none for the second chunk. *)
Lemma add_partitions_chunking_counterexample :
  length (chunkify (example_inputs 101) 100) = 2 /\
  length (calls (_add_partitions
                   (client_answering
                      (errors_of [error_with_code "InternalServiceException"]))
                   codes_str "db" "t" (example_inputs 101) None 0)) = 1 /\
  value (_add_partitions
           (client_answering
              (errors_of [error_with_code "InternalServiceException"]))
           codes_str "db" "t" (example_inputs 101) None 0)
  = Raise (ServiceApiError "InternalServiceException").
Proof.
repeat split; vm_compute; reflexivity.
Qed.


(** ** The public add-partitions operations *)

Section PublicOperations.

Variable World : Type.
Variable client_glue : GlueClient World.
Variable py_str : list error -> string.
Variable sanitize_table_name : string -> string.

Lemma add_partitions_single_chunk (database table : string)
    (catalog_id : option string) (inputs : list PartitionInput) (w : World) :
  truthy inputs = true ->
  length inputs <= 100 ->
  calls (_add_partitions client_glue py_str database table inputs catalog_id w)
  = [batch_create_partition_call (batch_request database table catalog_id inputs)].
Proof.
intros Hne Hlen. unfold _add_partitions. cbv zeta.
rewrite (chunkify_single inputs Hne Hlen), for_each_cons.
destruct (value (_add_partitions_chunk client_glue py_str database table
                   catalog_id inputs w)); reflexivity.
Qed.

Lemma add_partitions_calls_for_table (database table : string)
    (catalog_id : option string) (inputs : list PartitionInput) (w : World) :
  all_batch_calls_for_table table
    (calls (_add_partitions client_glue py_str database table inputs catalog_id w)).
Proof.
unfold _add_partitions, all_batch_calls_for_table. cbv zeta.
destruct (for_each_prefix client_glue py_str database table catalog_id
            (chunkify inputs 100) w) as [k [_ [Hc _]]].
rewrite Hc. apply Forall_forall. intros c Hin.
apply in_map_iff in Hin as [r [<- Hr]].
apply in_map_iff in Hr as [chunk [<- _]].
reflexivity.
Qed.

Lemma located_at_keys (build : string * list string -> PartitionInput)
    (partitions_values : dict string (list string)) :
  (forall kv, Location (build kv) = fst kv) ->
  Forall2 (fun kv p => Location p = fst kv)
    (items partitions_values) (map build (items partitions_values)).
Proof.
intros Hloc. unfold items.
induction partitions_values as [| kv rest IH]; constructor; [apply Hloc | exact IH].
Qed.

Lemma truthy_map (A B : Type) (f : A -> B) (l : list A) :
  truthy (map f l) = truthy l.
Proof. destruct l; reflexivity. Qed.

(** C5. Called with an empty mapping, each of the four add-partitions
    operations issues no request, leaves the remote state as it was and
    returns normally. *)
Theorem add_partitions_empty_mapping
    (database table : string) (bucketing_info : option (list string * Z))
    (catalog_id compression : option string) (sep : string)
    (serde_library : option string)
    (serde_parameters columns_types partitions_parameters
       : option (dict string string)) (w : World) :
  add_csv_partitions client_glue py_str sanitize_table_name database table []
    bucketing_info catalog_id compression sep serde_library serde_parameters
    columns_types partitions_parameters w
  = {| world := w; calls := []; value := Ok tt |} /\
  add_json_partitions client_glue py_str sanitize_table_name database table []
    bucketing_info catalog_id compression serde_library serde_parameters
    columns_types partitions_parameters w
  = {| world := w; calls := []; value := Ok tt |} /\
  add_parquet_partitions client_glue py_str sanitize_table_name database table []
    bucketing_info catalog_id compression columns_types partitions_parameters w
  = {| world := w; calls := []; value := Ok tt |} /\
  add_orc_partitions client_glue py_str sanitize_table_name database table []
    bucketing_info catalog_id compression columns_types partitions_parameters w
  = {| world := w; calls := []; value := Ok tt |}.
Proof.
repeat split.
Qed.

(** C7. For a non-empty mapping of at most 100 entries, each add-partitions
    operation issues exactly one bulk-create call; its record list has one
    record per item of the mapping, in order, and each record's storage
    location is the key of its item. *)
Theorem add_partitions_one_call_per_mapping
    (database table : string)
    (partitions_values : dict string (list string))
    (bucketing_info : option (list string * Z))
    (catalog_id compression : option string) (sep : string)
    (serde_library : option string)
    (serde_parameters columns_types partitions_parameters
       : option (dict string string)) (w : World) :
  truthy partitions_values = true ->
  length partitions_values <= 100 ->
  one_call_one_record_per_key partitions_values
    (calls (add_csv_partitions client_glue py_str sanitize_table_name database
              table partitions_values bucketing_info catalog_id compression sep
              serde_library serde_parameters columns_types partitions_parameters
              w)) /\
  one_call_one_record_per_key partitions_values
    (calls (add_json_partitions client_glue py_str sanitize_table_name database
              table partitions_values bucketing_info catalog_id compression
              serde_library serde_parameters columns_types partitions_parameters
              w)) /\
  one_call_one_record_per_key partitions_values
    (calls (add_parquet_partitions client_glue py_str sanitize_table_name
              database table partitions_values bucketing_info catalog_id
              compression columns_types partitions_parameters w)) /\
  one_call_one_record_per_key partitions_values
    (calls (add_orc_partitions client_glue py_str sanitize_table_name database
              table partitions_values bucketing_info catalog_id compression
              columns_types partitions_parameters w)).
Proof.
intros Hne Hlen.
unfold add_csv_partitions, add_json_partitions, add_parquet_partitions,
  add_orc_partitions. cbv zeta. rewrite Hne.
repeat split;
  (eexists; split;
   [ apply add_partitions_single_chunk;
     [ rewrite truthy_map; exact Hne
     | rewrite length_map; exact Hlen ]
   | apply located_at_keys; intros kv; reflexivity ]).
Qed.

(** The keys of a dict are distinct, so under C7 every key of the mapping is
    the location of exactly one record of the call. *)
Lemma one_record_per_key (partitions_values : dict string (list string))
    (issued : list call) :
  dict_keys_unique partitions_values ->
  one_call_one_record_per_key partitions_values issued ->
  exists req,
    issued = [batch_create_partition_call req] /\
    map Location (BatchCreatePartition.PartitionInputList (kwargs req))
    = keys partitions_values /\
    NoDup (map Location (BatchCreatePartition.PartitionInputList (kwargs req))).
Proof.
intros Huniq [req [Hcalls Hloc]]. exists req. split; [exact Hcalls |].
assert (E : map Location (BatchCreatePartition.PartitionInputList (kwargs req))
            = keys partitions_values).
{ unfold keys, items in *.
  induction Hloc as [| kv p l l' Hhd _ IH]; [reflexivity |].
  cbn [map]. rewrite Hhd, IH; [reflexivity |].
  inversion Huniq. assumption. }
split; [exact E | rewrite E; exact Huniq].
Qed.

End PublicOperations.

(** ** [add_column] *)

Section AddColumn.

Variable World : Type.
Variable client_glue : GlueClient World.
Variable py_str : list error -> string.
Variable _LEGAL_COLUMN_TYPES : list string.

Lemma check_column_type_legal (column_type : string) :
  In column_type _LEGAL_COLUMN_TYPES ->
  _check_column_type _LEGAL_COLUMN_TYPES column_type = Ok true.
Proof.
intros Hin. unfold _check_column_type.
replace (existsb (String.eqb column_type) _LEGAL_COLUMN_TYPES) with true;
  [reflexivity |].
symmetry. apply existsb_exists. exists column_type.
split; [assumption | apply String.eqb_refl].
Qed.

Lemma check_column_type_illegal (column_type : string) :
  ~ In column_type _LEGAL_COLUMN_TYPES ->
  _check_column_type _LEGAL_COLUMN_TYPES column_type
  = Raise (ValidationError column_type).
Proof.
intros Hnin. unfold _check_column_type.
destruct (existsb (String.eqb column_type) _LEGAL_COLUMN_TYPES) eqn:E;
  [| reflexivity].
apply existsb_exists in E as [t [Hin Ht]].
apply String.eqb_eq in Ht. subst. contradiction.
Qed.

Lemma append_column_columns (table_input table_input' : TableInput.t)
    (col : Column.t) :
  append_column table_input col = Ok table_input' ->
  exists cols,
    table_input_columns table_input = Some cols /\
    table_input_columns table_input' = Some (cols ++ [col]) /\
    TableInput.Name table_input' = TableInput.Name table_input.
Proof.
unfold append_column, table_input_columns.
destruct (TableInput.StorageDescriptor table_input) as [sd |]; [| discriminate].
destruct (StorageDescriptor.Columns sd) as [cols |]; [| discriminate].
intros H. inversion H. subst. exists cols. repeat split.
Qed.

(** A run of [add_column] that gets as far as the update. *)
Lemma add_column_run (database table column_name column_type : string)
    (column_comment catalog_id : option string) (w w1 : World)
    (table_res : GetTable.response) (table_input : TableInput.t) :
  In column_type _LEGAL_COLUMN_TYPES ->
  get_table client_glue (get_table_request database table catalog_id) w
  = (w1, Ok table_res) ->
  append_column (_update_table_definition table_res)
    {| Column.Name := column_name;
       Column.Type' := column_type;
       Column.Comment := column_comment |} = Ok table_input ->
  add_column client_glue py_str _LEGAL_COLUMN_TYPES database table column_name
    column_type column_comment catalog_id w
  = {| world := fst (update_table client_glue
                       (update_table_request database table_input catalog_id) w1);
       calls := [get_table_call (get_table_request database table catalog_id);
                 update_table_call
                   (update_table_request database table_input catalog_id)];
       value :=
         match snd (update_table client_glue
                      (update_table_request database table_input catalog_id) w1)
         with
         | Ok res => _add_column_response py_str res
         | Raise e => Raise e
         end |}.
Proof.
intros Hlegal Hget Happ.
unfold add_column, bind, lift, call_get_table, call_update_table.
rewrite (check_column_type_legal _ Hlegal). cbn [value world calls].
rewrite Hget. cbn [value world calls]. rewrite Happ. cbn [value world calls].
destruct (update_table client_glue
            (update_table_request database table_input catalog_id) w1)
  as [w2 r].
cbn [fst snd value world calls].
destruct r as [res | e]; reflexivity.
Qed.

(** C6. A column type outside the supported set makes [add_column] raise the
    validation error with no request issued: neither get-table nor
    update-table is called, and the remote state is untouched. *)
Theorem add_column_rejects_unsupported_type
    (database table column_name column_type : string)
    (column_comment catalog_id : option string) (w : World) :
  ~ In column_type _LEGAL_COLUMN_TYPES ->
  add_column client_glue py_str _LEGAL_COLUMN_TYPES database table column_name
    column_type column_comment catalog_id w
  = {| world := w; calls := []; value := Raise (ValidationError column_type) |}.
Proof.
intros Hnin. unfold add_column, bind, lift.
rewrite (check_column_type_illegal _ Hnin). reflexivity.
Qed.

(** C8. With a supported column type, once the table is fetched and has a
    column list, [add_column] submits one update, for the caller's database
    and catalog, and the table input inside that update-table request has as
    its column list the fetched list followed by the new column: the fetched
    columns keep their positions and the new column is last. *)
Theorem add_column_appends_last
    (database table column_name column_type : string)
    (column_comment catalog_id : option string) (w w1 : World)
    (table_res : GetTable.response) (cols : list Column.t) :
  In column_type _LEGAL_COLUMN_TYPES ->
  get_table client_glue (get_table_request database table catalog_id) w
  = (w1, Ok table_res) ->
  table_columns (GetTable.Table table_res) = Some cols ->
  let new_column := {| Column.Name := column_name;
                       Column.Type' := column_type;
                       Column.Comment := column_comment |} in
  exists request,
    calls (add_column client_glue py_str _LEGAL_COLUMN_TYPES database table
             column_name column_type column_comment catalog_id w)
    = [get_table_call (get_table_request database table catalog_id);
       update_table_call request] /\
    table_input_columns (UpdateTable.TableInput (kwargs request))
    = Some (cols ++ [new_column]) /\
    UpdateTable.DatabaseName (kwargs request) = database /\
    CatalogId request = catalog_id /\
    (forall i, i < length cols ->
               nth_error (cols ++ [new_column]) i = nth_error cols i) /\
    nth_error (cols ++ [new_column]) (length cols) = Some new_column /\
    length (cols ++ [new_column]) = S (length cols).
Proof.
intros Hlegal Hget Hcols new_column.
unfold table_columns in Hcols.
destruct (Table.StorageDescriptor (GetTable.Table table_res)) as [sd |] eqn:Hsd;
  [| discriminate].
assert (Happ : exists table_input,
           append_column (_update_table_definition table_res) new_column
           = Ok table_input /\
           table_input_columns table_input = Some (cols ++ [new_column])).
{ unfold append_column, _update_table_definition.
  cbn [TableInput.StorageDescriptor]. rewrite Hsd, Hcols.
  eexists. split; [reflexivity |].
  unfold table_input_columns. reflexivity. }
destruct Happ as [table_input [Happ Hnew]].
exists (update_table_request database table_input catalog_id).
erewrite add_column_run; [| exact Hlegal | exact Hget | exact Happ]. cbn [calls].
split; [reflexivity |]. split; [exact Hnew |].
split; [reflexivity |]. split; [reflexivity |].
split; [intros i Hi; apply nth_error_app1; exact Hi |].
split.
- rewrite nth_error_app2 by apply Nat.le_refl.
  rewrite Nat.sub_diag. reflexivity.
- rewrite length_app. cbn [length]. lia.
Qed.

(** C9. [add_column] ignores no error code: when the answer to its update
    reports an error that carries an error code, whatever the code (the
    already-exists one included), it raises a [ServiceApiError] whose message
    is [str] of the answer's whole error list. *)
Theorem add_column_raises_on_any_error_code
    (database table column_name column_type : string)
    (column_comment catalog_id : option string) (w w1 : World)
    (table_res : GetTable.response) (table_input : TableInput.t)
    (res : response) (errs : list error) (e : error) (c : string) :
  In column_type _LEGAL_COLUMN_TYPES ->
  get_table client_glue (get_table_request database table catalog_id) w
  = (w1, Ok table_res) ->
  append_column (_update_table_definition table_res)
    {| Column.Name := column_name;
       Column.Type' := column_type;
       Column.Comment := column_comment |} = Ok table_input ->
  snd (update_table client_glue
         (update_table_request database table_input catalog_id) w1) = Ok res ->
  Errors res = Some errs ->
  In e errs ->
  error_code e = Some c ->
  value (add_column client_glue py_str _LEGAL_COLUMN_TYPES database table
           column_name column_type column_comment catalog_id w)
  = Raise (ServiceApiError (py_str errs)).
Proof.
intros Hlegal Hget Happ Hupd Herrs Hin Hcode.
erewrite add_column_run; [| exact Hlegal | exact Hget | exact Happ]. cbn [value].
rewrite Hupd. unfold _add_column_response. rewrite Herrs.
destruct errs as [| e0 rest]; [contradiction |].
cbn [truthy]. rewrite _add_column_errors_spec.
destruct (forallb unrecognizable (e0 :: rest)) eqn:Hall; [| reflexivity].
rewrite forallb_forall in Hall. specialize (Hall e Hin).
unfold unrecognizable in Hall. rewrite Hcode in Hall. discriminate.
Qed.

End AddColumn.

(** ** Table names on the wire *)

Section TableNames.

Variable World : Type.
Variable client_glue : GlueClient World.
Variable py_str : list error -> string.
Variable sanitize_table_name : string -> string.
Variable _LEGAL_COLUMN_TYPES : list string.

(** C10, as the code has it.  Each of the four add-partitions operations
    passes the sanitized table name on, so every bulk-create request it
    issues carries [sanitize_table_name table].  [add_column] does not
    sanitize: its get-table call carries the caller's table name as given,
    and its update-table call carries the table input derived from the
    fetched definition, whose name is the name of the table the service
    returned. *)
Theorem table_names_in_requests
    (database table : string)
    (partitions_values : dict string (list string))
    (bucketing_info : option (list string * Z))
    (catalog_id compression : option string) (sep : string)
    (serde_library : option string)
    (serde_parameters columns_types partitions_parameters
       : option (dict string string))
    (column_name column_type : string) (column_comment : option string)
    (w : World) :
  all_batch_calls_for_table (sanitize_table_name table)
    (calls (add_csv_partitions client_glue py_str sanitize_table_name database
              table partitions_values bucketing_info catalog_id compression sep
              serde_library serde_parameters columns_types partitions_parameters
              w)) /\
  all_batch_calls_for_table (sanitize_table_name table)
    (calls (add_json_partitions client_glue py_str sanitize_table_name database
              table partitions_values bucketing_info catalog_id compression
              serde_library serde_parameters columns_types partitions_parameters
              w)) /\
  all_batch_calls_for_table (sanitize_table_name table)
    (calls (add_parquet_partitions client_glue py_str sanitize_table_name
              database table partitions_values bucketing_info catalog_id
              compression columns_types partitions_parameters w)) /\
  all_batch_calls_for_table (sanitize_table_name table)
    (calls (add_orc_partitions client_glue py_str sanitize_table_name database
              table partitions_values bucketing_info catalog_id compression
              columns_types partitions_parameters w)) /\
  Forall (fun c =>
            match c with
            | get_table_call req => GetTable.Name (kwargs req) = table
            | update_table_call req =>
                exists w1 table_res,
                  get_table client_glue
                    (get_table_request database table catalog_id) w
                  = (w1, Ok table_res) /\
                  TableInput.Name (UpdateTable.TableInput (kwargs req))
                  = Table.Name (GetTable.Table table_res)
            | batch_create_partition_call _ => False
            end)
    (calls (add_column client_glue py_str _LEGAL_COLUMN_TYPES database table
              column_name column_type column_comment catalog_id w)).
Proof.
split; [apply add_partitions_calls_for_table |].
split; [apply add_partitions_calls_for_table |].
split.
{ unfold add_parquet_partitions. cbv zeta.
  destruct (truthy partitions_values);
    [apply add_partitions_calls_for_table | constructor]. }
split.
{ unfold add_orc_partitions. cbv zeta.
  destruct (truthy partitions_values);
    [apply add_partitions_calls_for_table | constructor]. }
unfold add_column, bind, lift, call_get_table, call_update_table.
destruct (_check_column_type _LEGAL_COLUMN_TYPES column_type) as [[|] | e];
  cbn [value world calls]; try constructor.
destruct (get_table client_glue (get_table_request database table catalog_id) w)
  as [w1 [table_res | e]] eqn:Hget; cbn [value world calls app].
- destruct (append_column (_update_table_definition table_res)
              {| Column.Name := column_name;
                 Column.Type' := column_type;
                 Column.Comment := column_comment |})
    as [table_input | e] eqn:Happ; cbn [value world calls app].
  + destruct (update_table client_glue
                (update_table_request database table_input catalog_id) w1)
      as [w2 [res | e]]; cbn [value world calls app];
      (constructor; [reflexivity |]; constructor; [| constructor];
       exists w1, table_res; split; [reflexivity |];
       destruct (append_column_columns _ _ Happ) as [cols [_ [_ Hname]]];
       cbn [kwargs update_table_request _catalog_id UpdateTable.TableInput];
       rewrite Hname; reflexivity).
  + constructor; [reflexivity | constructor].
- constructor; [reflexivity | constructor].
Qed.

End TableNames.

(** *** Concrete runs *)

Lemma add_column_rejects_unsupported_type_witness :
  add_column (client_lowercasing no_errors) codes_str example_types
    "db" "t" "c2" "decimal128" None None 0
  = {| world := 0; calls := []; value := Raise (ValidationError "decimal128") |}.
Proof.
apply (@add_column_rejects_unsupported_type nat (client_lowercasing no_errors)
         codes_str example_types "db" "t" "c2" "decimal128" None None 0).
intros H. cbn in H. intuition discriminate.
Defined.

Lemma add_partitions_one_call_per_mapping_witness :
  one_call_one_record_per_key example_partitions
    (calls (add_csv_partitions (client_answering no_errors) codes_str
              example_sanitize "db" "T" example_partitions None None None ","
              None None None None 0)).
Proof.
refine (proj1 (@add_partitions_one_call_per_mapping nat
                 (client_answering no_errors) codes_str example_sanitize
                 "db" "T" example_partitions None None None "," None None None
                 None 0 eq_refl _)).
unfold example_partitions. cbn [length]. lia.
Defined.

Lemma add_column_appends_last_witness :
  exists request,
    calls (add_column (client_lowercasing no_errors) codes_str example_types
             "db" "mytable" "c2" "int" (Some "added") None 0)
    = [get_table_call (get_table_request "db" "mytable" None);
       update_table_call request] /\
    table_input_columns (UpdateTable.TableInput (kwargs request))
    = Some [example_column "c0"; example_column "c1";
            {| Column.Name := "c2"; Column.Type' := "int";
               Column.Comment := Some "added" |}].
Proof.
destruct (@add_column_appends_last nat (client_lowercasing no_errors) codes_str
            example_types "db" "mytable" "c2" "int" (Some "added") None 0 1
            (example_table "mytable")
            [example_column "c0"; example_column "c1"])
  as [request [Hcalls [Hcols _]]].
- right. left. reflexivity.
- reflexivity.
- reflexivity.
- exists request. split; [exact Hcalls | exact Hcols].
Defined.

(** The same answer, one already-exists error, is fatal to [add_column]. *)
Lemma add_column_raises_on_any_error_code_witness :
  value (add_column
           (client_lowercasing
              (errors_of [error_with_code "AlreadyExistsException"]))
           codes_str example_types "db" "mytable" "c2" "int" None None 0)
  = Raise (ServiceApiError "AlreadyExistsException").
Proof.
eapply (@add_column_raises_on_any_error_code nat
          (client_lowercasing
             (errors_of [error_with_code "AlreadyExistsException"]))
          codes_str example_types "db" "mytable" "c2" "int" None None 0 1
          (example_table "mytable") _
          (errors_of [error_with_code "AlreadyExistsException"])
          [error_with_code "AlreadyExistsException"]
          (error_with_code "AlreadyExistsException")
          "AlreadyExistsException").
- right. left. reflexivity.
- reflexivity.
- reflexivity.
- reflexivity.
- reflexivity.
- left. reflexivity.
- reflexivity.
Defined.

(** The caller asks for "MyTable"; the service returns the table under the
    name "mytable"; the update-table call carries "mytable", not the
    caller's name. *)
Lemma add_column_table_name_counterexample :
  map table_name_sent
    (calls (add_column (client_lowercasing no_errors) codes_str example_types
              "db" "MyTable" "c2" "int" None None 0))
  = [Some "MyTable"; Some "mytable"] /\
  String.eqb "mytable" "MyTable" = false.
Proof.
split; vm_compute; reflexivity.
Qed.

(** *** The scenario of section 8 *)

Example two_partitions_one_call :
  map (fun c =>
         match c with
         | batch_create_partition_call req =>
             (BatchCreatePartition.TableName (kwargs req),
              map Location (BatchCreatePartition.PartitionInputList (kwargs req)))
         | _ => ("", [])
         end)
    (calls (add_parquet_partitions (client_answering no_errors) codes_str
              example_sanitize "db" "T" example_partitions None None None None
              None 0))
  = [("t_T", ["s3://b/y=2020/m=10/"; "s3://b/y=2020/m=11/"])].
Proof. vm_compute. reflexivity. Qed.

Example chunks_of_250 :
  map (@length PartitionInput) (chunkify (example_inputs 250) 100) = [100; 100; 50].
Proof. vm_compute. reflexivity. Qed.

Example already_exists_is_ignored_by_partitions_only :
  _add_partitions_response codes_str
    (errors_of [error_with_code "AlreadyExistsException"]) = Ok tt /\
  _add_column_response codes_str
    (errors_of [error_with_code "AlreadyExistsException"])
  = Raise (ServiceApiError "AlreadyExistsException").
Proof. split; reflexivity. Qed.

(** * Further properties of the module *)

(** ** How [_add_partitions] fails *)

Section Failures.

Variable World : Type.
Variable client_glue : GlueClient World.
Variable py_str : list error -> string.
Variables database table : string.
Variable catalog_id : option string.

Local Abbreviation req := (batch_request database table catalog_id).
Local Abbreviation body :=
  (_add_partitions_chunk client_glue py_str database table catalog_id).
Local Abbreviation serve := (batch_create_partition client_glue).

Lemma chunk_client_error (chunk : list PartitionInput) (w : World)
    (e : exception) :
  snd (serve (req chunk) w) = Raise e ->
  body chunk w =
  {| world := fst (serve (req chunk) w);
     calls := [batch_create_partition_call (req chunk)];
     value := Raise e |}.
Proof.
unfold _add_partitions_chunk, bind, call_batch_create_partition, lift.
destruct (serve (req chunk) w) as [w' r].
cbn [fst snd world calls value]. intros ->. reflexivity.
Qed.

Lemma for_each_client_error (pre : list (list PartitionInput))
    (chunk : list PartitionInput) (post : list (list PartitionInput))
    (e : exception) :
  forall w,
    forallb accepted (batch_responses client_glue (map req pre) w) = true ->
    snd (serve (req chunk) (world_after client_glue (map req pre) w)) = Raise e ->
    for_each (pre ++ chunk :: post) body w =
    {| world := world_after client_glue (map req (pre ++ [chunk])) w;
       calls := map batch_create_partition_call (map req (pre ++ [chunk]));
       value := Raise e |}.
Proof.
induction pre as [| c pre IH]; intros w Hall Hres.
- cbn [app map world_after] in *.
  rewrite for_each_cons, (chunk_client_error chunk w Hres). reflexivity.
- cbn [map batch_responses forallb world_after] in Hall, Hres.
  apply andb_true_iff in Hall as [Hacc Hrest].
  rewrite <- app_comm_cons, for_each_cons.
  rewrite (chunk_accepted client_glue py_str database table catalog_id c w Hacc).
  cbn [value world]. rewrite (IH _ Hrest Hres). reflexivity.
Qed.

(** What an iteration that raises has seen: a client exception, passed on
    as it is, or an answer with a fatal error, reported with the answer's
    whole error list. *)
Lemma chunk_raise_origin (chunk : list PartitionInput) (w : World)
    (e : exception) :
  value (body chunk w) = Raise e ->
  snd (serve (req chunk) w) = Raise e \/
  exists res errs,
    snd (serve (req chunk) w) = Ok res /\
    Errors res = Some errs /\
    Exists (fun x => exists c, error_code x = Some c /\
                               c <> "AlreadyExistsException") errs /\
    e = ServiceApiError (py_str errs).
Proof.
unfold _add_partitions_chunk, bind, call_batch_create_partition, lift.
destruct (serve (req chunk) w) as [w' r].
cbn [fst snd world calls value].
destruct r as [res | e']; cbn [value].
- rewrite _add_partitions_response_spec.
  destruct (Errors res) as [errs |] eqn:Herrs; [| discriminate].
  destruct (existsb fatal_error errs) eqn:Hf; [| discriminate].
  intros H. inversion H. right. exists res, errs.
  split; [reflexivity |]. split; [exact Herrs |].
  split; [apply existsb_fatal_iff; exact Hf | reflexivity].
- intros H. inversion H. left. reflexivity.
Qed.

Lemma chunk_ok_accepted (chunk : list PartitionInput) (w : World) (u : unit) :
  value (body chunk w) = Ok u ->
  accepted (snd (serve (req chunk) w)) = true.
Proof.
unfold _add_partitions_chunk, bind, call_batch_create_partition, lift.
destruct (serve (req chunk) w) as [w' r].
cbn [fst snd world calls value].
destruct r as [res | e']; cbn [value]; [| discriminate].
rewrite _add_partitions_response_spec. unfold accepted.
destruct (Errors res) as [errs |]; [| reflexivity].
destruct (existsb fatal_error errs); [discriminate | reflexivity].
Qed.

Lemma for_each_raise_origin (chunks : list (list PartitionInput)) (e : exception) :
  forall w,
    value (for_each chunks body w) = Raise e ->
    exists pre chunk post,
      chunks = pre ++ chunk :: post /\
      forallb accepted (batch_responses client_glue (map req pre) w) = true /\
      calls (for_each chunks body w)
      = map batch_create_partition_call (map req (pre ++ [chunk])) /\
      value (body chunk (world_after client_glue (map req pre) w)) = Raise e.
Proof.
induction chunks as [| c rest IH]; intros w; [discriminate |].
rewrite for_each_cons.
destruct (value (body c w)) as [u | e'] eqn:Hv; cbn [value calls].
- intros Hraise.
  destruct (IH _ Hraise) as [pre [chunk [post [Hsplit [Hacc [Hcalls Horigin]]]]]].
  pose proof (chunk_ok_accepted c w Hv) as Hc.
  exists (c :: pre), chunk, post.
  cbn [map batch_responses forallb world_after app].
  rewrite <- chunk_world with (py_str := py_str).
  repeat split.
  + rewrite Hsplit. reflexivity.
  + rewrite Hc. exact Hacc.
  + rewrite Hcalls. reflexivity.
  + exact Horigin.
- intros H. inversion H. subst e'.
  exists [], c, rest. repeat split. exact Hv.
Qed.

(** X1. An exception raised by the client on some chunk's request, all
    earlier answers having been accepted, leaves [_add_partitions] as it is:
    same exception, no request for a later chunk, and the remote state the
    issued requests produced. *)
Theorem add_partitions_propagates_client_error
    (inputs : list PartitionInput) (w : World)
    (pre : list (list PartitionInput)) (chunk : list PartitionInput)
    (post : list (list PartitionInput)) (e : exception) :
  chunkify inputs 100 = pre ++ chunk :: post ->
  forallb accepted (batch_responses client_glue (map req pre) w) = true ->
  snd (serve (req chunk) (world_after client_glue (map req pre) w)) = Raise e ->
  _add_partitions client_glue py_str database table inputs catalog_id w
  = {| world := world_after client_glue (map req (pre ++ [chunk])) w;
       calls := map batch_create_partition_call (map req (pre ++ [chunk]));
       value := Raise e |}.
Proof.
intros Hchunks Hpre Hres. unfold _add_partitions. cbv zeta.
rewrite Hchunks. apply for_each_client_error; assumption.
Qed.

(** X2. Every failure of [_add_partitions] has one of two origins.  The
    call raises [e] only at a chunk all of whose predecessors were accepted,
    with exactly the requests up to that chunk issued, and either the client
    raised [e] on that chunk's request, or the answer's error list holds an
    error with a code other than "AlreadyExistsException" and [e] is the
    [ServiceApiError] carrying [str] of that list. *)
Theorem add_partitions_raise_origin
    (inputs : list PartitionInput) (w : World) (e : exception) :
  value (_add_partitions client_glue py_str database table inputs catalog_id w)
  = Raise e ->
  exists pre chunk post,
    chunkify inputs 100 = pre ++ chunk :: post /\
    forallb accepted (batch_responses client_glue (map req pre) w) = true /\
    calls (_add_partitions client_glue py_str database table inputs catalog_id w)
    = map batch_create_partition_call (map req (pre ++ [chunk])) /\
    (snd (serve (req chunk) (world_after client_glue (map req pre) w)) = Raise e \/
     exists res errs,
       snd (serve (req chunk) (world_after client_glue (map req pre) w)) = Ok res /\
       Errors res = Some errs /\
       Exists (fun x => exists c, error_code x = Some c /\
                                  c <> "AlreadyExistsException") errs /\
       e = ServiceApiError (py_str errs)).
Proof.
unfold _add_partitions. cbv zeta. intros Hraise.
destruct (for_each_raise_origin _ _ Hraise)
  as [pre [chunk [post [Hsplit [Hacc [Hcalls Hv]]]]]].
exists pre, chunk, post.
split; [exact Hsplit |]. split; [exact Hacc |]. split; [exact Hcalls |].
apply chunk_raise_origin. exact Hv.
Qed.

End Failures.

Lemma add_partitions_propagates_client_error_witness :
  _add_partitions client_throttling_second codes_str "db" "t"
    (example_inputs 250) None 0
  = {| world := 2;
       calls := map batch_create_partition_call
                  (map (batch_request "db" "t" None)
                       [firstn 100 (example_inputs 250);
                        firstn 100 (skipn 100 (example_inputs 250))]);
       value := Raise (ClientError "ThrottlingException") |}.
Proof.
apply (@add_partitions_propagates_client_error nat client_throttling_second
         codes_str "db" "t" None (example_inputs 250) 0
         [firstn 100 (example_inputs 250)]
         (firstn 100 (skipn 100 (example_inputs 250)))
         [skipn 200 (example_inputs 250)]
         (ClientError "ThrottlingException")).
- vm_compute. reflexivity.
- reflexivity.
- reflexivity.
Defined.

Lemma add_partitions_raise_origin_witness :
  exists pre chunk post,
    chunkify (example_inputs 250) 100 = pre ++ chunk :: post /\
    calls (_add_partitions client_failing_second codes_str "db" "t"
             (example_inputs 250) None 0)
    = map batch_create_partition_call
        (map (batch_request "db" "t" None) (pre ++ [chunk])).
Proof.
destruct (@add_partitions_raise_origin nat client_failing_second codes_str
            "db" "t" None (example_inputs 250) 0
            (ServiceApiError "AlreadyExistsException,InternalServiceException"))
  as [pre [chunk [post [Hsplit [_ [Hcalls _]]]]]].
- vm_compute. reflexivity.
- exists pre, chunk, post. split; [exact Hsplit | exact Hcalls].
Defined.

Lemma add_partitions_all_accepted_witness :
  _add_partitions
    (client_answering (errors_of [error_with_code "AlreadyExistsException";
                                  error_without_detail]))
    codes_str "db" "t" (example_inputs 250) None 0
  = {| world := 3;
       calls := map batch_create_partition_call
                  (map (batch_request "db" "t" None)
                       (chunkify (example_inputs 250) 100));
       value := Ok tt |}.
Proof.
apply (@add_partitions_all_accepted nat
         (client_answering (errors_of [error_with_code "AlreadyExistsException";
                                       error_without_detail]))
         codes_str "db" "t" None (example_inputs 250) 0).
intros req w'. reflexivity.
Defined.

(** ** What the requests carry *)

Section Passthrough.

Variable World : Type.
Variable client_glue : GlueClient World.
Variable py_str : list error -> string.
Variable sanitize_table_name : string -> string.

Lemma add_partitions_calls_for_database (database table : string)
    (catalog_id : option string) (inputs : list PartitionInput) (w : World) :
  all_batch_calls_for_database database catalog_id
    (calls (_add_partitions client_glue py_str database table inputs catalog_id w)).
Proof.
unfold _add_partitions, all_batch_calls_for_database. cbv zeta.
destruct (for_each_prefix client_glue py_str database table catalog_id
            (chunkify inputs 100) w) as [k [_ [Hc _]]].
rewrite Hc. apply Forall_forall. intros c Hin.
apply in_map_iff in Hin as [r [<- Hr]].
apply in_map_iff in Hr as [chunk [<- _]].
split; reflexivity.
Qed.

(** X4. Only the table name is sanitized: every request issued by any of
    the four add-partitions operations carries the caller's database name
    and catalog identifier exactly as given. *)
Theorem partition_requests_keep_database_and_catalog
    (database table : string)
    (partitions_values : dict string (list string))
    (bucketing_info : option (list string * Z))
    (catalog_id compression : option string) (sep : string)
    (serde_library : option string)
    (serde_parameters columns_types partitions_parameters
       : option (dict string string)) (w : World) :
  all_batch_calls_for_database database catalog_id
    (calls (add_csv_partitions client_glue py_str sanitize_table_name database
              table partitions_values bucketing_info catalog_id compression sep
              serde_library serde_parameters columns_types partitions_parameters
              w)) /\
  all_batch_calls_for_database database catalog_id
    (calls (add_json_partitions client_glue py_str sanitize_table_name database
              table partitions_values bucketing_info catalog_id compression
              serde_library serde_parameters columns_types partitions_parameters
              w)) /\
  all_batch_calls_for_database database catalog_id
    (calls (add_parquet_partitions client_glue py_str sanitize_table_name
              database table partitions_values bucketing_info catalog_id
              compression columns_types partitions_parameters w)) /\
  all_batch_calls_for_database database catalog_id
    (calls (add_orc_partitions client_glue py_str sanitize_table_name database
              table partitions_values bucketing_info catalog_id compression
              columns_types partitions_parameters w)).
Proof.
split; [apply add_partitions_calls_for_database |].
split; [apply add_partitions_calls_for_database |].
split.
- unfold add_parquet_partitions. cbv zeta.
  destruct (truthy partitions_values);
    [apply add_partitions_calls_for_database | constructor].
- unfold add_orc_partitions. cbv zeta.
  destruct (truthy partitions_values);
    [apply add_partitions_calls_for_database | constructor].
Qed.

End Passthrough.

(** ** Runs of [add_column] *)

Section AddColumnRuns.

Variable World : Type.
Variable client_glue : GlueClient World.
Variable py_str : list error -> string.
Variable _LEGAL_COLUMN_TYPES : list string.
Variables database table column_name column_type : string.
Variables column_comment catalog_id : option string.

Local Abbreviation new_column :=
  {| Column.Name := column_name;
     Column.Type' := column_type;
     Column.Comment := column_comment |}.
Local Abbreviation run :=
  (add_column client_glue py_str _LEGAL_COLUMN_TYPES database table column_name
     column_type column_comment catalog_id).
Local Abbreviation fetch :=
  (get_table client_glue (get_table_request database table catalog_id)).

Lemma add_column_response_ok (res : response) :
  _add_column_response py_str res = Ok tt <->
  (forall errs, Errors res = Some errs ->
                Forall (fun e => error_code e = None) errs).
Proof.
unfold _add_column_response.
destruct (Errors res) as [errs |].
- assert (Hspec : (if truthy errs then _add_column_errors py_str errs errs else Ok tt)
                  = if forallb unrecognizable errs
                    then Ok tt else Raise (ServiceApiError (py_str errs))).
  { destruct errs as [| e rest]; [reflexivity |].
    cbn [truthy]. apply _add_column_errors_spec. }
  rewrite Hspec. split.
  + intros H errs' E. inversion E. subst errs'.
    destruct (forallb unrecognizable errs) eqn:Hall; [| discriminate].
    rewrite forallb_forall in Hall. apply Forall_forall. intros e Hin.
    specialize (Hall e Hin). unfold unrecognizable in Hall.
    destruct (error_code e); [discriminate | reflexivity].
  + intros H. specialize (H errs eq_refl). rewrite Forall_forall in H.
    replace (forallb unrecognizable errs) with true; [reflexivity |].
    symmetry. apply forallb_forall. intros e Hin.
    unfold unrecognizable. rewrite (H e Hin). reflexivity.
- split; [intros _ errs E; discriminate | reflexivity].
Qed.

(** X5. When [get_table] raises (the table does not exist, access is
    denied, the transport fails), [add_column] raises the same exception and
    has issued the get-table call only: no update is attempted. *)
Theorem add_column_get_table_failure (w : World) (e : exception) :
  In column_type _LEGAL_COLUMN_TYPES ->
  snd (fetch w) = Raise e ->
  run w = {| world := fst (fetch w);
             calls := [get_table_call (get_table_request database table catalog_id)];
             value := Raise e |}.
Proof.
intros Hlegal Hget. unfold add_column, bind, lift, call_get_table.
rewrite (check_column_type_legal _ _ Hlegal). cbn [value world calls].
destruct (fetch w) as [w1 r]. cbn [fst snd] in *. subst r. reflexivity.
Qed.

(** X6. When the table input derived from the fetched definition has no
    column list (no storage descriptor, or a descriptor without columns),
    indexing it raises [KeyError]: [add_column] fails after the get-table
    call and submits no update. *)
Theorem add_column_missing_columns (w w1 : World) (table_res : GetTable.response) :
  In column_type _LEGAL_COLUMN_TYPES ->
  fetch w = (w1, Ok table_res) ->
  table_input_columns (_update_table_definition table_res) = None ->
  calls (run w) = [get_table_call (get_table_request database table catalog_id)] /\
  world (run w) = w1 /\
  (value (run w) = Raise (KeyError "StorageDescriptor") \/
   value (run w) = Raise (KeyError "Columns")).
Proof.
intros Hlegal Hget Hnone. unfold add_column, bind, lift, call_get_table.
rewrite (check_column_type_legal _ _ Hlegal). cbn [value world calls].
rewrite Hget. cbn [value world calls].
unfold table_input_columns in Hnone. unfold append_column.
destruct (TableInput.StorageDescriptor (_update_table_definition table_res))
  as [sd |].
- rewrite Hnone. cbn [value world calls app].
  split; [reflexivity |]. split; [reflexivity |]. right. reflexivity.
- cbn [value world calls app].
  split; [reflexivity |]. split; [reflexivity |]. left. reflexivity.
Qed.

(** X7. An update answer with no "Errors" entry, an empty error list, or
    only errors without a recognizable error code does not make [add_column]
    fail: it returns normally after the get-table and the update-table
    call. *)
Theorem add_column_skips_codeless_errors (w w1 : World)
    (table_res : GetTable.response) (table_input : TableInput.t)
    (res : response) :
  In column_type _LEGAL_COLUMN_TYPES ->
  fetch w = (w1, Ok table_res) ->
  append_column (_update_table_definition table_res) new_column = Ok table_input ->
  snd (update_table client_glue
         (update_table_request database table_input catalog_id) w1) = Ok res ->
  (forall errs, Errors res = Some errs ->
                Forall (fun e => error_code e = None) errs) ->
  run w = {| world := fst (update_table client_glue
                             (update_table_request database table_input catalog_id)
                             w1);
             calls := [get_table_call (get_table_request database table catalog_id);
                       update_table_call
                         (update_table_request database table_input catalog_id)];
             value := Ok tt |}.
Proof.
intros Hlegal Hget Happ Hupd Hcodeless.
erewrite add_column_run; [| exact Hlegal | exact Hget | exact Happ].
rewrite Hupd. apply add_column_response_ok in Hcodeless.
rewrite Hcodeless. reflexivity.
Qed.

(** X8. When [update_table] raises, [add_column] raises the same exception,
    both calls having been issued. *)
Theorem add_column_update_failure (w w1 : World)
    (table_res : GetTable.response) (table_input : TableInput.t)
    (e : exception) :
  In column_type _LEGAL_COLUMN_TYPES ->
  fetch w = (w1, Ok table_res) ->
  append_column (_update_table_definition table_res) new_column = Ok table_input ->
  snd (update_table client_glue
         (update_table_request database table_input catalog_id) w1) = Raise e ->
  value (run w) = Raise e /\
  calls (run w)
  = [get_table_call (get_table_request database table catalog_id);
     update_table_call (update_table_request database table_input catalog_id)].
Proof.
intros Hlegal Hget Happ Hupd.
erewrite add_column_run; [| exact Hlegal | exact Hget | exact Happ].
cbn [value calls]. rewrite Hupd. split; reflexivity.
Qed.

(** X9. A normal return of [add_column] means the work was done: the table
    was fetched, the second and last call is an update-table request for the
    caller's database and catalog whose table input has the fetched column
    list with the new column appended, and the answer to that request
    reported no error with an error code. *)
Theorem add_column_success_means_updated (w : World) :
  In column_type _LEGAL_COLUMN_TYPES ->
  value (run w) = Ok tt ->
  exists w1 table_res cols request res,
    fetch w = (w1, Ok table_res) /\
    table_columns (GetTable.Table table_res) = Some cols /\
    calls (run w)
    = [get_table_call (get_table_request database table catalog_id);
       update_table_call request] /\
    table_input_columns (UpdateTable.TableInput (kwargs request))
    = Some (cols ++ [new_column]) /\
    UpdateTable.DatabaseName (kwargs request) = database /\
    CatalogId request = catalog_id /\
    snd (update_table client_glue request w1) = Ok res /\
    (forall errs, Errors res = Some errs ->
                  Forall (fun e => error_code e = None) errs).
Proof.
intros Hlegal.
destruct (fetch w) as [w1 [table_res | e]] eqn:Hget.
- destruct (append_column (_update_table_definition table_res) new_column)
    as [table_input | e] eqn:Happ.
  + erewrite add_column_run; [| exact Hlegal | exact Hget | exact Happ].
    cbn [value calls].
    destruct (snd (update_table client_glue
                     (update_table_request database table_input catalog_id) w1))
      as [res | e] eqn:Hupd; [| discriminate].
    intros Hok.
    destruct (append_column_columns _ _ Happ) as [cols [Hcols [Hnew _]]].
    exists w1, table_res, cols,
      (update_table_request database table_input catalog_id), res.
    split; [reflexivity |]. split; [exact Hcols |]. split; [reflexivity |].
    split; [exact Hnew |]. split; [reflexivity |]. split; [reflexivity |].
    split; [exact Hupd |].
    apply add_column_response_ok. exact Hok.
  + unfold add_column, bind, lift, call_get_table.
    rewrite (check_column_type_legal _ _ Hlegal). cbn [value world calls].
    rewrite Hget. cbn [value world calls]. rewrite Happ. discriminate.
- unfold add_column, bind, lift, call_get_table.
  rewrite (check_column_type_legal _ _ Hlegal). cbn [value world calls].
  rewrite Hget. discriminate.
Qed.

(** X10. Appending the column touches nothing else: the table input inside
    the update-table request that [add_column] issues, for the caller's
    database and catalog, has the name, description, owner, partition keys,
    table type and parameters of the table input derived from the fetched
    definition, and the same storage location and compression flag. *)
Theorem add_column_update_frame (w w1 : World)
    (table_res : GetTable.response) (cols : list Column.t) :
  In column_type _LEGAL_COLUMN_TYPES ->
  fetch w = (w1, Ok table_res) ->
  table_columns (GetTable.Table table_res) = Some cols ->
  exists request table_input sd sd',
    calls (run w)
    = [get_table_call (get_table_request database table catalog_id);
       update_table_call request] /\
    UpdateTable.TableInput (kwargs request) = table_input /\
    UpdateTable.DatabaseName (kwargs request) = database /\
    CatalogId request = catalog_id /\
    TableInput.StorageDescriptor (_update_table_definition table_res) = Some sd /\
    TableInput.StorageDescriptor table_input = Some sd' /\
    StorageDescriptor.Location sd' = StorageDescriptor.Location sd /\
    StorageDescriptor.Compressed sd' = StorageDescriptor.Compressed sd /\
    TableInput.Name table_input
    = TableInput.Name (_update_table_definition table_res) /\
    TableInput.Description table_input
    = TableInput.Description (_update_table_definition table_res) /\
    TableInput.Owner table_input
    = TableInput.Owner (_update_table_definition table_res) /\
    TableInput.PartitionKeys table_input
    = TableInput.PartitionKeys (_update_table_definition table_res) /\
    TableInput.TableType table_input
    = TableInput.TableType (_update_table_definition table_res) /\
    TableInput.Parameters table_input
    = TableInput.Parameters (_update_table_definition table_res).
Proof.
intros Hlegal Hget Hcols. unfold table_columns in Hcols.
destruct (Table.StorageDescriptor (GetTable.Table table_res)) as [sd |] eqn:Hsd;
  [| discriminate].
assert (Hbase : TableInput.StorageDescriptor (_update_table_definition table_res)
                = Some sd) by exact Hsd.
destruct (append_column (_update_table_definition table_res) new_column)
  as [table_input | e] eqn:Happ.
- exists (update_table_request database table_input catalog_id), table_input.
  erewrite add_column_run; [| exact Hlegal | exact Hget | exact Happ].
  cbn [calls]. unfold append_column in Happ. rewrite Hbase, Hcols in Happ.
  inversion Happ. subst table_input. cbn [TableInput.StorageDescriptor].
  eexists sd, _. repeat split. exact Hbase.
- unfold append_column in Happ. rewrite Hbase, Hcols in Happ. discriminate.
Qed.

End AddColumnRuns.

(** X11. The check of [add_column] is the stricter of the two: an answer
    that [add_column] lets pass would also pass in [_add_partitions]. *)
Theorem add_column_check_is_stricter (py_str py_str' : list error -> string)
    (res : response) :
  _add_column_response py_str res = Ok tt ->
  _add_partitions_response py_str' res = Ok tt.
Proof.
intros Hok. rewrite _add_partitions_response_spec.
destruct (Errors res) as [errs |] eqn:Herrs; [| reflexivity].
pose proof (proj1 (add_column_response_ok py_str res) Hok errs Herrs) as Hall.
destruct (existsb fatal_error errs) eqn:Hf; [| reflexivity].
apply existsb_exists in Hf as [e [Hin Hfatal]].
rewrite Forall_forall in Hall. unfold fatal_error in Hfatal.
rewrite (Hall e Hin) in Hfatal. discriminate.
Qed.

(** *** Concrete runs *)

Lemma add_column_get_table_failure_witness :
  add_column client_without_table codes_str example_types
    "db" "t" "c2" "int" None None 0
  = {| world := 1;
       calls := [get_table_call (get_table_request "db" "t" None)];
       value := Raise (ClientError "EntityNotFoundException") |}.
Proof.
apply (@add_column_get_table_failure nat client_without_table codes_str
         example_types "db" "t" "c2" "int" None None 0
         (ClientError "EntityNotFoundException")).
- right. left. reflexivity.
- reflexivity.
Defined.

Lemma add_column_missing_columns_witness :
  calls (add_column client_table_without_columns codes_str example_types
           "db" "t" "c2" "int" None None 0)
  = [get_table_call (get_table_request "db" "t" None)] /\
  world (add_column client_table_without_columns codes_str example_types
           "db" "t" "c2" "int" None None 0) = 1.
Proof.
destruct (@add_column_missing_columns nat client_table_without_columns
            codes_str example_types "db" "t" "c2" "int" None None 0 1
            example_table_without_columns) as [Hcalls [Hworld _]].
- right. left. reflexivity.
- reflexivity.
- reflexivity.
- split; [exact Hcalls | exact Hworld].
Defined.

Lemma add_column_skips_codeless_errors_witness :
  value (add_column
           (client_lowercasing (errors_of [error_without_detail; error_without_code]))
           codes_str example_types "db" "mytable" "c2" "int" None None 0)
  = Ok tt.
Proof.
destruct (append_column (_update_table_definition (example_table "mytable"))
            {| Column.Name := "c2"; Column.Type' := "int";
               Column.Comment := None |})
  as [table_input | e] eqn:Happ; [| vm_compute in Happ; discriminate Happ].
assert (Hcodeless :
          forall errs,
            Errors (errors_of [error_without_detail; error_without_code]) = Some errs ->
            Forall (fun e => error_code e = None) errs).
{ intros errs E. inversion E. repeat constructor. }
rewrite (@add_column_skips_codeless_errors nat
           (client_lowercasing (errors_of [error_without_detail; error_without_code]))
           codes_str example_types "db" "mytable" "c2" "int" None None 0 1
           (example_table "mytable") table_input
           (errors_of [error_without_detail; error_without_code])
           (or_intror (or_introl eq_refl)) eq_refl Happ eq_refl Hcodeless).
reflexivity.
Defined.

Lemma add_column_update_failure_witness :
  value (add_column client_refusing_update codes_str example_types
           "db" "t" "c2" "int" None None 0)
  = Raise (ClientError "AccessDeniedException").
Proof.
destruct (append_column (_update_table_definition (example_table "t"))
            {| Column.Name := "c2"; Column.Type' := "int";
               Column.Comment := None |})
  as [table_input | e] eqn:Happ; [| vm_compute in Happ; discriminate Happ].
exact (proj1 (@add_column_update_failure nat client_refusing_update codes_str
                example_types "db" "t" "c2" "int" None None 0 1
                (example_table "t") table_input
                (ClientError "AccessDeniedException")
                (or_intror (or_introl eq_refl)) eq_refl Happ eq_refl)).
Defined.

Lemma add_column_success_means_updated_witness :
  exists request,
    calls (add_column (client_lowercasing no_errors) codes_str example_types
             "db" "mytable" "c2" "int" None None 0)
    = [get_table_call (get_table_request "db" "mytable" None);
       update_table_call request] /\
    UpdateTable.DatabaseName (kwargs request) = "db".
Proof.
destruct (@add_column_success_means_updated nat (client_lowercasing no_errors)
            codes_str example_types "db" "mytable" "c2" "int" None None 0)
  as [w1 [table_res [cols [request [res [_ [_ [Hcalls [_ [Hdb _]]]]]]]]]].
- right. left. reflexivity.
- reflexivity.
- exists request. split; [exact Hcalls | exact Hdb].
Defined.

Lemma add_column_update_frame_witness :
  exists request,
    calls (add_column (client_lowercasing no_errors) codes_str example_types
             "db" "mytable" "c2" "int" None None 0)
    = [get_table_call (get_table_request "db" "mytable" None);
       update_table_call request] /\
    TableInput.Name (UpdateTable.TableInput (kwargs request)) = "mytable" /\
    TableInput.TableType (UpdateTable.TableInput (kwargs request))
    = Some "EXTERNAL_TABLE".
Proof.
destruct (@add_column_update_frame nat (client_lowercasing no_errors)
            codes_str example_types "db" "mytable" "c2" "int" None None 0 1
            (example_table "mytable")
            [example_column "c0"; example_column "c1"])
  as (request & table_input & sd & sd' & Hcalls & Hinput & _ & _ & _ & _ & _ & _
      & Hname & _ & _ & _ & Htype & _).
- right. left. reflexivity.
- reflexivity.
- reflexivity.
- exists request. rewrite Hinput.
  split; [exact Hcalls |]. split; [exact Hname | exact Htype].
Defined.

Lemma add_column_check_is_stricter_witness :
  _add_partitions_response codes_str
    (errors_of [error_without_detail; error_without_code]) = Ok tt.
Proof.
apply (@add_column_check_is_stricter codes_str codes_str
         (errors_of [error_without_detail; error_without_code])).
reflexivity.
Defined.

(** ** Whole runs of [_add_partitions], answer by answer *)

Section WholeRuns.

Variable World : Type.
Variable client_glue : GlueClient World.
Variable py_str : list error -> string.
Variables database table : string.
Variable catalog_id : option string.

Local Abbreviation req := (batch_request database table catalog_id).
Local Abbreviation body :=
  (_add_partitions_chunk client_glue py_str database table catalog_id).
Local Abbreviation serve := (batch_create_partition client_glue).
Local Abbreviation run :=
  (_add_partitions client_glue py_str database table).

Lemma map_records_sent (chunks : list (list PartitionInput)) :
  map records_sent (map batch_create_partition_call (map req chunks)) = chunks.
Proof.
induction chunks as [| c rest IH]; [reflexivity |].
cbn [map]. rewrite IH. reflexivity.
Qed.

Lemma world_after_app (pre post : list BatchCreatePartition.request) (w : World) :
  world_after client_glue (pre ++ post) w
  = world_after client_glue post (world_after client_glue pre w).
Proof.
revert w. induction pre as [| r pre IH]; intros w; [reflexivity |].
cbn [app world_after]. apply IH.
Qed.

Lemma batch_responses_app (pre post : list BatchCreatePartition.request)
    (w : World) :
  batch_responses client_glue (pre ++ post) w
  = batch_responses client_glue pre w
    ++ batch_responses client_glue post (world_after client_glue pre w).
Proof.
revert w. induction pre as [| r pre IH]; intros w; [reflexivity |].
cbn [app batch_responses world_after]. rewrite IH. reflexivity.
Qed.

Lemma accepted_snoc (pre : list (list PartitionInput))
    (chunk : list PartitionInput) (w : World) :
  forallb accepted (batch_responses client_glue (map req pre) w) = true ->
  accepted (snd (serve (req chunk) (world_after client_glue (map req pre) w)))
  = true ->
  forallb accepted (batch_responses client_glue (map req (pre ++ [chunk])) w)
  = true.
Proof.
intros Hpre Hchunk.
rewrite map_app, batch_responses_app, forallb_app, Hpre.
cbn [map batch_responses forallb]. rewrite Hchunk. reflexivity.
Qed.

(** Past a run of accepted answers the loop is where it would be had it
    started on the remaining chunks. *)
Lemma for_each_past_accepted (pre post : list (list PartitionInput)) :
  forall w,
    forallb accepted (batch_responses client_glue (map req pre) w) = true ->
    for_each (pre ++ post) body w
    = {| world := world (for_each post body
                           (world_after client_glue (map req pre) w));
         calls := map batch_create_partition_call (map req pre)
                  ++ calls (for_each post body
                              (world_after client_glue (map req pre) w));
         value := value (for_each post body
                           (world_after client_glue (map req pre) w)) |}.
Proof.
induction pre as [| c pre IH]; intros w Hall.
- cbn [app map world_after]. destruct (for_each post body w). reflexivity.
- cbn [map batch_responses forallb world_after] in *.
  apply andb_true_iff in Hall as [Hacc Hrest].
  rewrite <- app_comm_cons, for_each_cons.
  rewrite (chunk_accepted client_glue py_str database table catalog_id c w Hacc).
  cbn [value world]. rewrite (IH _ Hrest). reflexivity.
Qed.

Lemma chunk_not_accepted (chunk : list PartitionInput) (w : World) :
  accepted (snd (serve (req chunk) w)) = false ->
  raises (value (body chunk w)) = true.
Proof.
intros Hrej.
destruct (value (body chunk w)) as [u | e] eqn:Hv; [| reflexivity].
rewrite (chunk_ok_accepted client_glue py_str database table catalog_id chunk w Hv)
  in Hrej.
discriminate.
Qed.

(** The loop either has every answer accepted and returns after one request
    per chunk, or raises at the first chunk whose answer is not accepted. *)
Lemma for_each_dichotomy (chunks : list (list PartitionInput)) :
  forall w,
    (forallb accepted (batch_responses client_glue (map req chunks) w) = true /\
     for_each chunks body w
     = {| world := world_after client_glue (map req chunks) w;
          calls := map batch_create_partition_call (map req chunks);
          value := Ok tt |}) \/
    (exists pre chunk post,
        chunks = pre ++ chunk :: post /\
        forallb accepted (batch_responses client_glue (map req pre) w) = true /\
        accepted (snd (serve (req chunk)
                         (world_after client_glue (map req pre) w))) = false /\
        raises (value (for_each chunks body w)) = true /\
        calls (for_each chunks body w)
        = map batch_create_partition_call (map req (pre ++ [chunk])) /\
        world (for_each chunks body w)
        = world_after client_glue (map req (pre ++ [chunk])) w).
Proof.
induction chunks as [| c rest IH]; intros w.
- left. split; reflexivity.
- destruct (accepted (snd (serve (req c) w))) eqn:Hacc.
  + rewrite for_each_cons.
    rewrite (chunk_accepted client_glue py_str database table catalog_id c w Hacc).
    cbn [value world map batch_responses forallb world_after]. rewrite Hacc.
    destruct (IH (fst (serve (req c) w)))
      as [[Hall Hrun] | [pre [chunk [post [Hsplit [Hpre [Hrej [Hr [Hc Hw]]]]]]]]].
    * left. split; [exact Hall |]. rewrite Hrun. reflexivity.
    * right. exists (c :: pre), chunk, post.
      cbn [map batch_responses forallb world_after app value calls world].
      rewrite Hacc.
      split; [rewrite Hsplit; reflexivity |].
      split; [exact Hpre |]. split; [exact Hrej |].
      split; [exact Hr |]. split; [rewrite Hc; reflexivity | exact Hw].
  + right. exists [], c, rest.
    cbn [map batch_responses forallb world_after app].
    split; [reflexivity |]. split; [reflexivity |]. split; [exact Hacc |].
    pose proof (chunk_not_accepted c w Hacc) as Hraise.
    rewrite for_each_cons.
    destruct (value (body c w)) as [u | e]; [discriminate |].
    cbn [value calls world].
    split; [reflexivity |]. split; [reflexivity |]. apply chunk_world.
Qed.

(** The call goes past an accepted answer: it returns when that was the last
    chunk, and otherwise issues the next chunk's request. *)
Lemma add_partitions_goes_past (inputs : list PartitionInput) (w : World)
    (pre : list (list PartitionInput)) (chunk : list PartitionInput)
    (post : list (list PartitionInput)) :
  chunkify inputs 100 = pre ++ chunk :: post ->
  forallb accepted (batch_responses client_glue (map req pre) w) = true ->
  accepted (snd (serve (req chunk) (world_after client_glue (map req pre) w)))
  = true ->
  (post = [] ->
   run inputs catalog_id w
   = {| world := world_after client_glue (map req (pre ++ [chunk])) w;
        calls := map batch_create_partition_call (map req (pre ++ [chunk]));
        value := Ok tt |}) /\
  (forall next rest,
      post = next :: rest ->
      nth_error (calls (run inputs catalog_id w)) (S (length pre))
      = Some (batch_create_partition_call (req next))).
Proof.
intros Hsplit Hpre Hchunk.
pose proof (accepted_snoc pre chunk w Hpre Hchunk) as Hall.
assert (Hrun : run inputs catalog_id w
               = for_each ((pre ++ [chunk]) ++ post) body w).
{ unfold _add_partitions. cbv zeta. rewrite Hsplit, <- app_assoc. reflexivity. }
rewrite Hrun, (for_each_past_accepted _ post w Hall).
split.
- intros ->. cbn [for_each ret world calls value].
  rewrite app_nil_r. reflexivity.
- intros next rest ->. cbn [calls].
  rewrite for_each_cons.
  assert (Hlen : length (map batch_create_partition_call (map req (pre ++ [chunk])))
                 = S (length pre)).
  { rewrite !length_map, length_app. cbn [length]. lia. }
  rewrite nth_error_app2 by (rewrite Hlen; apply Nat.le_refl).
  rewrite Hlen, Nat.sub_diag.
  destruct (value (body next
                     (world_after client_glue (map req (pre ++ [chunk])) w)));
    reflexivity.
Qed.

Lemma only_ignorable_accepted (res : response) :
  (forall errs,
      Errors res = Some errs ->
      Forall (fun e => error_code e = None \/
                       error_code e = Some "AlreadyExistsException") errs) ->
  accepted (Ok res) = true.
Proof.
intros Hall. unfold accepted.
destruct (Errors res) as [errs |]; [| reflexivity].
apply negb_true_iff.
destruct (existsb fatal_error errs) eqn:Hex; [| reflexivity].
apply existsb_exists in Hex as [e [Hin Hf]].
specialize (Hall errs eq_refl). rewrite Forall_forall in Hall.
apply fatal_error_iff in Hf as [c [Hc Hne]].
destruct (Hall e Hin) as [H | H]; rewrite H in Hc; [discriminate |].
inversion Hc. subst. contradiction.
Qed.

Lemma not_accepted_fatal (res : response) :
  accepted (Ok res) = false ->
  exists errs, Errors res = Some errs /\ existsb fatal_error errs = true.
Proof.
unfold accepted. destruct (Errors res) as [errs |]; [| discriminate].
intros H. apply negb_false_iff in H. exists errs. split; [reflexivity | exact H].
Qed.

(** C1. In a call of [_add_partitions], whatever the records, take the
    answer to some chunk's request, the loop having reached it.  When every
    error of its error list carries the code "AlreadyExistsException" the
    call does not raise on it: it returns normally if that was the last
    chunk and otherwise issues the next chunk's request.  When the list
    contains an error with any other code, the call raises a
    [ServiceApiError] whose message is [str] of that answer's whole error
    list, and that chunk's request is the last one issued. *)
Theorem add_partitions_error_classification
    (inputs : list PartitionInput) (w : World)
    (pre : list (list PartitionInput)) (chunk : list PartitionInput)
    (post : list (list PartitionInput)) (res : response) (errs : list error) :
  chunkify inputs 100 = pre ++ chunk :: post ->
  forallb accepted (batch_responses client_glue (map req pre) w) = true ->
  snd (serve (req chunk) (world_after client_glue (map req pre) w)) = Ok res ->
  Errors res = Some errs ->
  (Forall (fun e => error_code e = Some "AlreadyExistsException") errs ->
   (post = [] ->
    run inputs catalog_id w
    = {| world := world_after client_glue (map req (pre ++ [chunk])) w;
         calls := map batch_create_partition_call (map req (pre ++ [chunk]));
         value := Ok tt |}) /\
   (forall next rest,
       post = next :: rest ->
       nth_error (calls (run inputs catalog_id w)) (S (length pre))
       = Some (batch_create_partition_call (req next)))) /\
  (Exists (fun e => exists c, error_code e = Some c /\ c <> "AlreadyExistsException")
          errs ->
   value (run inputs catalog_id w) = Raise (ServiceApiError (py_str errs)) /\
   calls (run inputs catalog_id w)
   = map batch_create_partition_call (map req (pre ++ [chunk]))).
Proof.
intros Hsplit Hpre Hres Herrs. split.
- intros Hall.
  apply (add_partitions_goes_past inputs w pre chunk post Hsplit Hpre).
  rewrite Hres. apply only_ignorable_accepted.
  intros errs' E. rewrite Herrs in E. inversion E. subst errs'.
  apply Forall_forall. intros e Hin. right.
  rewrite Forall_forall in Hall. exact (Hall e Hin).
- intros Hex. apply existsb_fatal_iff in Hex.
  unfold _add_partitions. cbv zeta. rewrite Hsplit.
  rewrite (@for_each_rejected World client_glue py_str database table catalog_id
             pre chunk post res errs w Hpre Hres Herrs Hex).
  split; reflexivity.
Qed.

(** C2, as the code has it.  In a call of [_add_partitions], take the answer
    to some chunk's request, the loop having reached it.  A reported error
    that lacks the "ErrorDetail" entry, or whose detail lacks the
    "ErrorCode" entry, is skipped: when every error of the answer is of that
    kind or an already-exists error, the call does not raise on it (it
    returns if that was the last chunk and otherwise issues the next
    request).  The call raises on that answer exactly when one of its errors
    carries an error code other than "AlreadyExistsException", and the
    exception is then the [ServiceApiError] of the whole error list. *)
Theorem add_partitions_skips_unrecognizable_errors
    (inputs : list PartitionInput) (w : World)
    (pre : list (list PartitionInput)) (chunk : list PartitionInput)
    (post : list (list PartitionInput)) (res : response) :
  chunkify inputs 100 = pre ++ chunk :: post ->
  forallb accepted (batch_responses client_glue (map req pre) w) = true ->
  snd (serve (req chunk) (world_after client_glue (map req pre) w)) = Ok res ->
  ((forall errs,
       Errors res = Some errs ->
       Forall (fun e => error_code e = None \/
                        error_code e = Some "AlreadyExistsException") errs) ->
   (post = [] ->
    run inputs catalog_id w
    = {| world := world_after client_glue (map req (pre ++ [chunk])) w;
         calls := map batch_create_partition_call (map req (pre ++ [chunk]));
         value := Ok tt |}) /\
   (forall next rest,
       post = next :: rest ->
       nth_error (calls (run inputs catalog_id w)) (S (length pre))
       = Some (batch_create_partition_call (req next)))) /\
  ((raises (value (run inputs catalog_id w)) = true /\
    length (calls (run inputs catalog_id w)) = S (length pre)) <->
   (exists errs e c,
       Errors res = Some errs /\ In e errs /\
       error_code e = Some c /\ c <> "AlreadyExistsException")) /\
  (forall errs e c,
      Errors res = Some errs -> In e errs ->
      error_code e = Some c -> c <> "AlreadyExistsException" ->
      run inputs catalog_id w
      = {| world := world_after client_glue (map req (pre ++ [chunk])) w;
           calls := map batch_create_partition_call (map req (pre ++ [chunk]));
           value := Raise (ServiceApiError (py_str errs)) |}).
Proof.
intros Hsplit Hpre Hres.
assert (Hfatal : forall errs e c,
           Errors res = Some errs -> In e errs ->
           error_code e = Some c -> c <> "AlreadyExistsException" ->
           run inputs catalog_id w
           = {| world := world_after client_glue (map req (pre ++ [chunk])) w;
                calls := map batch_create_partition_call (map req (pre ++ [chunk]));
                value := Raise (ServiceApiError (py_str errs)) |}).
{ intros errs e c Herrs Hin Hc Hne.
  assert (Hex : existsb fatal_error errs = true).
  { apply existsb_exists. exists e. split; [exact Hin |].
    apply fatal_error_iff. exists c. split; assumption. }
  unfold _add_partitions. cbv zeta. rewrite Hsplit.
  apply (@for_each_rejected World client_glue py_str database table catalog_id
           pre chunk post res errs w Hpre Hres Herrs Hex). }
split; [| split; [| exact Hfatal]].
- intros Hall.
  apply (add_partitions_goes_past inputs w pre chunk post Hsplit Hpre).
  rewrite Hres. apply only_ignorable_accepted. exact Hall.
- split.
  + intros [Hraise Hlen].
    destruct (accepted (Ok res)) eqn:Hacc.
    * exfalso.
      assert (Hacc' : accepted (snd (serve (req chunk)
                                       (world_after client_glue (map req pre) w)))
                      = true) by (rewrite Hres; exact Hacc).
      destruct (add_partitions_goes_past inputs w pre chunk post Hsplit Hpre Hacc')
        as [Hlast Hnext].
      destruct post as [| next rest].
      -- rewrite (Hlast eq_refl) in Hraise. discriminate.
      -- specialize (Hnext next rest eq_refl).
         assert (Hlt : S (length pre) < length (calls (run inputs catalog_id w))).
         { apply nth_error_Some. rewrite Hnext. discriminate. }
         lia.
    * destruct (not_accepted_fatal res Hacc) as [errs [Herrs Hex]].
      apply existsb_exists in Hex as [e [Hin Hf]].
      apply fatal_error_iff in Hf as [c [Hc Hne]].
      exists errs, e, c. repeat split; assumption.
  + intros [errs [e [c [Herrs [Hin [Hc Hne]]]]]].
    rewrite (Hfatal errs e c Herrs Hin Hc Hne). cbn [value calls raises].
    split; [reflexivity |].
    rewrite !length_map, length_app. cbn [length]. lia.
Qed.

(** C3, as the code has it.  [_add_partitions] splits a list of N records
    into ceil(N/100) consecutive chunks of at most 100 records, only the last
    of which may be shorter, whose concatenation in order is the input.  It
    then issues one bulk-create request per chunk, in chunk order, each
    carrying its chunk, for an initial run of the chunks.  Either every
    answer is accepted, every chunk gets its request and the call returns
    normally; or the call raises at the first chunk whose request is not
    accepted, having issued the requests of the chunks up to and including
    that one and none for a later chunk.  A normal return therefore means
    that every answer was accepted and every record was sent. *)
Theorem add_partitions_chunking (inputs : list PartitionInput) (w : World) :
  let chunks := chunkify inputs 100 in
  let o := run inputs catalog_id w in
  length chunks = ceil_div (length inputs) 100 /\
  Forall (fun c => 1 <= length c <= 100) chunks /\
  (forall i, S i < length chunks -> length (nth i chunks []) = 100) /\
  concat chunks = inputs /\
  ((forallb accepted (batch_responses client_glue (map req chunks) w) = true /\
    o = {| world := world_after client_glue (map req chunks) w;
           calls := map batch_create_partition_call (map req chunks);
           value := Ok tt |} /\
    map records_sent (calls o) = chunks) \/
   (exists pre chunk post,
       chunks = pre ++ chunk :: post /\
       forallb accepted (batch_responses client_glue (map req pre) w) = true /\
       accepted (snd (serve (req chunk)
                        (world_after client_glue (map req pre) w))) = false /\
       raises (value o) = true /\
       calls o = map batch_create_partition_call (map req (pre ++ [chunk])) /\
       map records_sent (calls o) = pre ++ [chunk] /\
       world o = world_after client_glue (map req (pre ++ [chunk])) w)) /\
  (value o = Ok tt ->
   forallb accepted (batch_responses client_glue (map req chunks) w) = true /\
   length (calls o) = length chunks /\
   concat (map records_sent (calls o)) = inputs).
Proof.
intros chunks o.
assert (Hpos : 0 < 100) by lia.
assert (Hconcat : concat chunks = inputs)
  by (apply chunkify_from_concat; [exact Hpos | apply Nat.le_refl]).
split; [apply chunkify_from_length; [exact Hpos | apply Nat.le_refl] |].
split; [apply chunkify_from_sizes; exact Hpos |].
split; [apply chunkify_from_full |].
split; [exact Hconcat |].
assert (Ho : o = for_each chunks body w) by reflexivity.
destruct (for_each_dichotomy chunks w)
  as [[Hall Hrun] | [pre [chunk [post [Hsplit [Hpre [Hrej [Hr [Hc Hw]]]]]]]]].
- split.
  + left. split; [exact Hall |]. split; [rewrite Ho; exact Hrun |].
    rewrite Ho, Hrun. cbn [calls]. apply map_records_sent.
  + intros _. split; [exact Hall |].
    rewrite Ho, Hrun. cbn [calls]. rewrite map_records_sent, !length_map.
    split; [reflexivity | exact Hconcat].
- split.
  + right. exists pre, chunk, post. rewrite Ho.
    split; [exact Hsplit |]. split; [exact Hpre |]. split; [exact Hrej |].
    split; [exact Hr |]. split; [exact Hc |].
    split; [rewrite Hc; apply map_records_sent | exact Hw].
  + intros Hok. rewrite Ho in Hok. rewrite Hok in Hr. discriminate.
Qed.

End WholeRuns.

(** *** Concrete runs *)

Lemma add_partitions_error_classification_witness :
  nth_error (calls (_add_partitions client_already_exists_then_fatal codes_str
                      "db" "t" (example_inputs 250) None 0)) 1
  = Some (batch_create_partition_call
            (batch_request "db" "t" None
               (firstn 100 (skipn 100 (example_inputs 250))))) /\
  value (_add_partitions client_already_exists_then_fatal codes_str
           "db" "t" (example_inputs 250) None 0)
  = Raise (ServiceApiError "AlreadyExistsException,InternalServiceException").
Proof.
split.
- refine (proj2 (proj1 (@add_partitions_error_classification nat
                          client_already_exists_then_fatal codes_str "db" "t" None
                          (example_inputs 250) 0
                          [] (firstn 100 (example_inputs 250))
                          [firstn 100 (skipn 100 (example_inputs 250));
                           skipn 200 (example_inputs 250)]
                          (errors_of [error_with_code "AlreadyExistsException"])
                          [error_with_code "AlreadyExistsException"]
                          _ eq_refl eq_refl eq_refl) _) _ _ eq_refl).
  + vm_compute. reflexivity.
  + repeat constructor.
- refine (proj1 (proj2 (@add_partitions_error_classification nat
                          client_already_exists_then_fatal codes_str "db" "t" None
                          (example_inputs 250) 0
                          [firstn 100 (example_inputs 250)]
                          (firstn 100 (skipn 100 (example_inputs 250)))
                          [skipn 200 (example_inputs 250)]
                          (errors_of second_answer_errors) second_answer_errors
                          _ eq_refl eq_refl eq_refl) _)).
  + vm_compute. reflexivity.
  + apply Exists_cons_tl, Exists_cons_hd.
    exists "InternalServiceException". split; [reflexivity | discriminate].
Defined.

Lemma add_partitions_skips_unrecognizable_errors_witness :
  nth_error (calls (_add_partitions client_unrecognizable_then_fatal codes_str
                      "db" "t" (example_inputs 250) None 0)) 1
  = Some (batch_create_partition_call
            (batch_request "db" "t" None
               (firstn 100 (skipn 100 (example_inputs 250))))).
Proof.
refine (proj2 (proj1 (@add_partitions_skips_unrecognizable_errors nat
                        client_unrecognizable_then_fatal codes_str "db" "t" None
                        (example_inputs 250) 0
                        [] (firstn 100 (example_inputs 250))
                        [firstn 100 (skipn 100 (example_inputs 250));
                         skipn 200 (example_inputs 250)]
                        (errors_of [error_without_detail; error_without_code;
                                    error_with_code "AlreadyExistsException"])
                        _ eq_refl eq_refl) _) _ _ eq_refl).
- vm_compute. reflexivity.
- intros errs E. inversion E.
  apply Forall_cons; [left; reflexivity |].
  apply Forall_cons; [left; reflexivity |].
  apply Forall_cons; [right; reflexivity | apply Forall_nil].
Defined.
